(** * Ticket processing worker: a shallow embedding

    The development follows the Python sources of the repository:

    - [src/common/schemas.py]   : the pydantic records and their validation,
    - [src/common/config.py]    : the bucket names the worker reads,
    - [src/processor/embeddings.py], [classifier.py], [summarizer.py] :
      the enrichment functions called by the worker,
    - [src/processor/worker.py] : [TicketProcessor], the polling loop and the
      two store writes.

    Python exceptions are values of [exn] carried by [result]; the mutable
    objects the worker touches (the S3 buckets, the DynamoDB table, the queue,
    [self.stats], the log) are fields of [World], threaded through every
    call.  Third-party code (the JSON decoder, pydantic's integer coercion,
    the three ML models, the wall clock) is collected in [Externals] and left
    arbitrary: every theorem holds for all of them. *)

From Stdlib Require Import ZArith QArith String Ascii List Lia DecimalString.
From stdpp Require Import base option list gmap strings.

Close Scope Q_scope.
Open Scope string_scope.
Open Scope list_scope.

(** ** Exceptions and results *)

(** The exception classes that the modelled code paths can raise. *)
Inductive exn : Type :=
| JSONDecodeError        (* json.loads on malformed text *)
| KeyError               (* d[k] on a dict without k *)
| TypeError              (* subscript / membership / iteration on a wrong type *)
| AttributeError         (* .get / .lower on a value that has no such method *)
| ValidationError        (* pydantic *)
| ParamValidationError   (* botocore: Bucket or Key is not a string *)
| ClientError            (* botocore: the request failed *)
| ModelError             (* an ML model could not be loaded or run *)
| ValueError.            (* int() of a malformed environment variable *)

Inductive result (A : Type) : Type :=
| Ok (a : A)
| Raise (e : exn).
Arguments Ok {A} a.
Arguments Raise {A} e.

(** [result] is the exception monad; stdpp's [x ← r; k] sequences two
    statements and lets the first exception escape. *)
#[global] Instance result_ret : MRet result := fun A a => Ok a.
#[global] Instance result_bind : MBind result := fun A B k r =>
  match r with
  | Ok a => k a
  | Raise e => Raise e
  end.

(** ** JSON values as Python sees them after [json.loads] *)

(** A [dict] is kept as an association list with distinct keys, in insertion
    order; Python floats are idealised as rationals. *)
#[warnings="-register-all"]
Inductive json : Type :=
| JNull
| JBool (b : bool)
| JInt (z : Z)
| JFloat (q : Q)
| JStr (s : string)
| JArr (l : list json)
| JObj (m : list (string * json)).

Fixpoint assoc {A} (k : string) (m : list (string * A)) : option A :=
  match m with
  | [] => None
  | (k', v) :: m' => if String.eqb k k' then Some v else assoc k m'
  end.

(** [needle in haystack] for two Python strings. *)
Fixpoint contains (needle haystack : string) : bool :=
  String.prefix needle haystack ||
  match haystack with
  | EmptyString => false
  | String _ rest => contains needle rest
  end.

Definition is_JStr (k : string) (v : json) : bool :=
  match v with JStr s => String.eqb s k | _ => false end.

(** [k in v] *)
Definition py_in (k : string) (v : json) : result bool :=
  match v with
  | JObj m => Ok (match assoc k m with Some _ => true | None => false end)
  | JArr l => Ok (existsb (is_JStr k) l)
  | JStr s => Ok (contains k s)
  | _ => Raise TypeError
  end.

(** [v[k]] with a string subscript *)
Definition py_getitem (v : json) (k : string) : result json :=
  match v with
  | JObj m => match assoc k m with Some x => Ok x | None => Raise KeyError end
  | _ => Raise TypeError
  end.

(** [v.get(k, default)]; [None] is [JNull]. *)
Definition py_get (v : json) (k : string) (default : json) : result json :=
  match v with
  | JObj m => Ok (match assoc k m with Some x => x | None => default end)
  | _ => Raise AttributeError
  end.

Fixpoint chars (s : string) : list json :=
  match s with
  | EmptyString => []
  | String c rest => JStr (String c EmptyString) :: chars rest
  end.

(** [for x in v] : the items a [for] loop visits. *)
Definition py_iter (v : json) : result (list json) :=
  match v with
  | JArr l => Ok l
  | JObj m => Ok (map (fun kv => JStr (fst kv)) m)
  | JStr s => Ok (chars s)
  | _ => Raise TypeError
  end.

(** ** Python string operations

    Text is modelled over the ASCII range: case folding, white space and the
    regular-expression class [\w] are the ASCII ones. *)

Definition code (c : ascii) : N := N_of_ascii c.

Definition between (lo hi : N) (c : ascii) : bool :=
  (lo <=? code c)%N && (code c <=? hi)%N.

(** [str.isspace] on one character: TAB, LF, VT, FF, CR, FS, GS, RS, US, SPACE. *)
Definition py_isspace (c : ascii) : bool :=
  between 9 13 c || between 28 31 c || (code c =? 32)%N.

Definition lower_char (c : ascii) : ascii :=
  if between 65 90 c then ascii_of_N (code c + 32) else c.

Definition upper_char (c : ascii) : ascii :=
  if between 97 122 c then ascii_of_N (code c - 32) else c.

Fixpoint map_string (f : ascii -> ascii) (s : string) : string :=
  match s with
  | EmptyString => EmptyString
  | String c rest => String (f c) (map_string f rest)
  end.

Definition lower : string -> string := map_string lower_char.
Definition upper : string -> string := map_string upper_char.

Fixpoint lstrip (s : string) : string :=
  match s with
  | String c rest => if py_isspace c then lstrip rest else s
  | EmptyString => EmptyString
  end.

Definition rstrip (s : string) : string := String.rev (lstrip (String.rev s)).
Definition strip (s : string) : string := rstrip (lstrip s).

(** Truthiness of a string: [bool(s)]. *)
Definition truthy (s : string) : bool :=
  match s with EmptyString => false | String _ _ => true end.

(** [s.split()] : the maximal runs of non-space characters. *)
Fixpoint split_go (cur : string) (s : string) : list string :=
  match s with
  | EmptyString => if truthy cur then [String.rev cur] else []
  | String c rest =>
      if py_isspace c
      then (if truthy cur then [String.rev cur] else []) ++ split_go EmptyString rest
      else split_go (String c cur) rest
  end.

Definition split (s : string) : list string := split_go EmptyString s.

(** [sep.join(l)] and [s[:n]]. *)
Definition join (sep : string) (l : list string) : string := String.concat sep l.
Definition str_take (n : nat) (s : string) : string := substring 0 n s.

Fixpoint last_char (s : string) : option ascii :=
  match s with
  | EmptyString => None
  | String c EmptyString => Some c
  | String _ rest => last_char rest
  end.

(** *** The pattern [r'\b' + re.escape(keyword) + r'\b'] *)

Definition is_word (c : ascii) : bool :=
  between 48 57 c || between 65 90 c || between 97 122 c || (code c =? 95)%N.

Definition head_is_word (s : string) : bool :=
  match s with String c _ => is_word c | EmptyString => false end.

Fixpoint last_is_word (prev : bool) (s : string) : bool :=
  match s with
  | EmptyString => prev
  | String c rest => last_is_word (is_word c) rest
  end.

Fixpoint strip_prefix (kw text : string) : option string :=
  match kw, text with
  | EmptyString, _ => Some text
  | String a kw', String b text' =>
      if Ascii.eqb a b then strip_prefix kw' text' else None
  | String _ _, EmptyString => None
  end.

(** The pattern matches at the head of [text]; [prev] tells whether the
    character before it is a word character.  A [\b] sits between two
    positions exactly one of which holds a word character. *)
Definition match_here (kw : string) (prev : bool) (text : string) : bool :=
  match strip_prefix kw text with
  | Some rest =>
      xorb prev (head_is_word text) &&
      xorb (last_is_word prev kw) (head_is_word rest)
  | None => false
  end.

(** [re.search(pattern, text)] is not [None]. *)
Fixpoint search_from (kw : string) (prev : bool) (text : string) : bool :=
  match_here kw prev text ||
  match text with
  | EmptyString => false
  | String c rest => search_from kw (is_word c) rest
  end.

Definition re_search (kw text : string) : bool := search_from kw false text.

(** [len(re.findall(pattern, text))] for a non-empty keyword: matches are
    counted left to right and do not overlap ([skip] characters of the last
    match are still to be stepped over). *)
Fixpoint findall_from (kw : string) (skip : nat) (prev : bool) (text : string) : nat :=
  match skip with
  | S k =>
      match text with
      | EmptyString => 0
      | String c rest => findall_from kw k (is_word c) rest
      end
  | O =>
      if match_here kw prev text
      then S (match text with
              | EmptyString => 0
              | String c rest => findall_from kw (String.length kw - 1) (is_word c) rest
              end)
      else match text with
           | EmptyString => 0
           | String c rest => findall_from kw 0 (is_word c) rest
           end
  end%nat.

Definition re_findall_count (kw text : string) : nat := findall_from kw 0 false text.

(** ** src/common/schemas.py : the records *)

Module TicketMetadata.
Record t : Type := mk {
  source : string;
  language : string;
  tags : list string
}.
End TicketMetadata.

Module RawTicket.
Record t : Type := mk {
  ticket_id : string;
  subject : string;
  body : string;
  priority : option string;
  created_at : Z;
  customer_id : string;
  metadata : TicketMetadata.t
}.
End RawTicket.

Module EnrichmentData.
Record t : Type := mk {
  embedding : list Q;
  intent : string;
  intent_confidence : Q;
  urgency : string;
  urgency_confidence : Q;
  sentiment : string;
  sentiment_confidence : Q;
  summary : string;
  processed_at : string;
  model_version : string
}.
End EnrichmentData.

Module EnrichedTicket.
Record t : Type := mk {
  ticket_id : string;
  subject : string;
  body : string;
  priority : option string;
  created_at : Z;
  customer_id : string;
  metadata : TicketMetadata.t;
  enrichment : EnrichmentData.t
}.

(** [EnrichedTicket.from_raw] *)
Definition from_raw (raw : RawTicket.t) (enrichment : EnrichmentData.t) : t :=
  {| ticket_id := RawTicket.ticket_id raw;
     subject := RawTicket.subject raw;
     body := RawTicket.body raw;
     priority := RawTicket.priority raw;
     created_at := RawTicket.created_at raw;
     customer_id := RawTicket.customer_id raw;
     metadata := RawTicket.metadata raw;
     enrichment := enrichment |}.
End EnrichedTicket.

Module DynamoDBTicket.
Record t : Type := mk {
  ticket_id : string;      (* partition key *)
  created_at : Z;          (* sort key *)
  subject : string;
  customer_id : string;
  intent : string;
  urgency : string;
  sentiment : string;
  summary : string;
  processed_at : string;
  s3_key : string
}.

(** [DynamoDBTicket.from_enriched] *)
Definition from_enriched (enriched : EnrichedTicket.t) : t :=
  let e := EnrichedTicket.enrichment enriched in
  {| ticket_id := EnrichedTicket.ticket_id enriched;
     created_at := EnrichedTicket.created_at enriched;
     subject := EnrichedTicket.subject enriched;
     customer_id := EnrichedTicket.customer_id enriched;
     intent := EnrichmentData.intent e;
     urgency := EnrichmentData.urgency e;
     sentiment := EnrichmentData.sentiment e;
     summary := EnrichmentData.summary e;
     processed_at := EnrichmentData.processed_at e;
     s3_key := EnrichedTicket.ticket_id enriched +:+ ".json" |}.

(** The composite primary key of the table ([TicketKey]). *)
Definition key (item : t) : string * Z := (ticket_id item, created_at item).
End DynamoDBTicket.

(** ** src/common/config.py : the fields the worker reads *)

Record S3Config : Type := {
  raw_bucket : string;
  enriched_bucket : string
}.

Record SQSConfig : Type := {
  queue_name : string;
  poll_interval : Z;
  max_messages : Z;
  visibility_timeout : Z
}.

Record ProcessorConfig : Type := {
  s3 : S3Config;
  sqs : SQSConfig;
  table_name : string
}.

(** ** Third-party collaborators

    None of these is code of the repository; each is an arbitrary function.
    A model handle is what the cached [load_*] function of
    [src/processor/models.py] returns, or the exception it raises. *)
Record Externals : Type := {
  (* json.loads: [None] when it raises JSONDecodeError *)
  json_loads : string -> option json;
  (* pydantic's validation of a value for a field declared [int] *)
  int_validate : json -> option Z;
  (* EnrichedTicket.model_dump_json(indent=2) *)
  model_dump_json : EnrichedTicket.t -> string;
  (* load_embedding_model(), then model.encode(text).tolist() *)
  load_embedding_model : result (string -> result (list Q));
  (* load_classifier_pipeline(), then the label and score of classifier(text)[0] *)
  load_classifier_pipeline : result (string -> result (string * Q));
  (* load_summarizer_pipeline(), then result[0]["summary_text"] of
     summarizer(text, max_length, min_length) *)
  load_summarizer_pipeline : result (string -> Z -> Z -> result string);
  (* ModelConfig.from_env().max_summary_length *)
  env_max_summary_length : result Z;
  (* datetime.utcnow().isoformat() at a given instant *)
  utcnow_isoformat : nat -> string
}.

(** ** src/common/schemas.py : validation

    The constructor [RawTicket] applied to the raw dict, with pydantic.  A
    field declared [str] accepts a JSON string only (pydantic 2, which the
    call to [model_dump_json] requires, does not turn numbers into strings);
    a field declared [int] accepts whatever [int_validate] accepts; unknown
    keys are ignored; every violation raises [ValidationError]. *)

Definition str_field (fields : list (string * json)) (k : string) : result string :=
  match assoc k fields with
  | Some (JStr s) => Ok s
  | _ => Raise ValidationError
  end.

Definition int_field (E : Externals) (fields : list (string * json)) (k : string)
  : result Z :=
  match assoc k fields with
  | Some v =>
      match int_validate E v with
      | Some z => Ok z
      | None => Raise ValidationError
      end
  | None => Raise ValidationError
  end.

Definition optional_str_field (fields : list (string * json)) (k : string)
  : result (option string) :=
  match assoc k fields with
  | None | Some JNull => Ok None
  | Some (JStr s) => Ok (Some s)
  | Some _ => Raise ValidationError
  end.

Definition default_str_field (fields : list (string * json)) (k default : string)
  : result string :=
  match assoc k fields with
  | None => Ok default
  | Some (JStr s) => Ok s
  | Some _ => Raise ValidationError
  end.

Fixpoint str_items (l : list json) : result (list string) :=
  match l with
  | [] => Ok []
  | JStr s :: rest => ss ← str_items rest; Ok (s :: ss)
  | _ :: _ => Raise ValidationError
  end.

Definition str_list_field (fields : list (string * json)) (k : string)
  : result (list string) :=
  match assoc k fields with
  | None => Ok []
  | Some (JArr l) => str_items l
  | Some _ => Raise ValidationError
  end.

Definition TicketMetadata_init (v : json) : result TicketMetadata.t :=
  match v with
  | JObj m =>
      source ← str_field m "source";
      language ← default_str_field m "language" "en";
      tags ← str_list_field m "tags";
      Ok (TicketMetadata.mk source language tags)
  | _ => Raise ValidationError
  end.

Definition metadata_field (fields : list (string * json)) : result TicketMetadata.t :=
  match assoc "metadata" fields with
  | None => Ok (TicketMetadata.mk "unknown" "en" [])
  | Some v => TicketMetadata_init v
  end.

Definition RawTicket_init (E : Externals) (fields : list (string * json))
  : result RawTicket.t :=
  ticket_id ← str_field fields "ticket_id";
  subject ← str_field fields "subject";
  body ← str_field fields "body";
  priority ← optional_str_field fields "priority";
  created_at ← int_field E fields "created_at";
  customer_id ← str_field fields "customer_id";
  metadata ← metadata_field fields;
  Ok (RawTicket.mk ticket_id subject body priority created_at customer_id metadata).

(** [Field(..., ge=0.0, le=1.0)] *)
Definition unit_interval (q : Q) : bool := Qle_bool 0 q && Qle_bool q 1.

(** [EnrichmentData(...)]: the arguments are already of the declared types, so
    only the three range constraints can fail. *)
Definition EnrichmentData_init (embedding : list Q)
    (intent : string) (intent_confidence : Q)
    (urgency : string) (urgency_confidence : Q)
    (sentiment : string) (sentiment_confidence : Q)
    (summary processed_at model_version : string) : result EnrichmentData.t :=
  if unit_interval intent_confidence
     && unit_interval urgency_confidence
     && unit_interval sentiment_confidence
  then Ok (EnrichmentData.mk embedding intent intent_confidence
             urgency urgency_confidence sentiment sentiment_confidence
             summary processed_at model_version)
  else Raise ValidationError.

(** ** The ticket dict handed to the enrichment functions *)

(** [ticket.get(k, default)] with the empty string as default, for the two
    text fields.  The worker calls the
    enrichment functions only after [RawTicket] validation, so the value is a
    string when present; for any other value the Python code would go on
    formatting it, which is outside the model and reported as [TypeError]. *)
Definition get_text (ticket : json) (k : string) : result string :=
  v ← py_get ticket k (JStr EmptyString);
  match v with
  | JStr s => Ok s
  | _ => Raise TypeError
  end.

(** [f"{subject}. {body}" if subject and body else subject or body] *)
Definition combined_text (subject body : string) : string :=
  if truthy subject && truthy body then subject +:+ ". " +:+ body
  else if truthy subject then subject else body.

(** ** src/processor/embeddings.py *)

Definition zero_vector : list Q := repeat 0%Q 384.

Definition generate_ticket_embedding (E : Externals) (ticket : json)
  : result (list Q) :=
  model ← load_embedding_model E;
  subject ← get_text ticket "subject";
  body ← get_text ticket "body";
  let text := combined_text subject body in
  if negb (truthy (strip text))
  then Ok zero_vector
  else model text.

(** ** src/processor/classifier.py *)

Definition INTENT_KEYWORDS : list (string * list string) :=
  [ ("login_issue",
      ["login"; "log in"; "sign in"; "signin"; "password"; "credentials";
       "authentication"; "auth"; "access denied"; "locked out"; "2fa"; "mfa"]);
    ("payment_issue",
      ["payment"; "charge"; "charged"; "refund"; "billing"; "invoice";
       "transaction"; "credit card"; "debit"; "declined"; "failed payment"]);
    ("bug_report",
      ["bug"; "error"; "crash"; "broken"; "not working"; "doesn't work";
       "issue"; "problem"; "glitch"; "freeze"; "hang"; "exception"]);
    ("feature_request",
      ["feature"; "request"; "enhancement"; "add"; "support for"; "would love";
       "suggestion"; "improve"; "could you add"; "wish"]);
    ("account_management",
      ["account"; "profile"; "settings"; "update"; "change"; "delete";
       "deactivate"; "email address"; "phone number"; "password reset"]);
    ("performance_issue",
      ["slow"; "performance"; "loading"; "timeout"; "lag"; "delay";
       "hanging"; "speed"; "takes too long"]);
    ("security_concern",
      ["security"; "hack"; "hacked"; "unauthorized"; "breach"; "suspicious";
       "fraud"; "scam"; "phishing"; "malware"; "virus"]);
    ("data_request",
      ["data"; "export"; "download"; "gdpr"; "privacy"; "information";
       "personal data"; "data protection"]);
    ("integration_help",
      ["integration"; "api"; "webhook"; "oauth"; "sdk"; "plugin";
       "third party"; "connect"; "sync"]) ].

Definition URGENCY_KEYWORDS : list (string * list string) :=
  [ ("critical",
      ["urgent"; "critical"; "emergency"; "asap"; "immediately"; "right now";
       "down"; "outage"; "broken"; "can't access"; "unable to"; "blocked";
       "losing money"; "production"; "hacked"; "security breach"]);
    ("high",
      ["important"; "need help"; "problem"; "issue"; "can't"; "cannot";
       "doesn't work"; "not working"; "error"; "failing"; "soon";
       "business impact"]);
    ("medium",
      ["question"; "how to"; "how do i"; "help"; "assistance";
       "wondering"; "clarify"; "explain"]);
    ("low",
      ["suggestion"; "feature"; "enhancement"; "when possible";
       "sometime"; "eventually"; "minor"; "nice to have"]) ].

(** The score of one category: the matches of all its keywords, summed. *)
Definition keyword_score (text : string) (keywords : list string) : nat :=
  fold_left (fun score keyword => (score + re_findall_count keyword text)%nat)
            keywords 0%nat.

(** [intent_scores]: the categories with a positive score, in dict order. *)
Definition intent_scores (text : string) : list (string * nat) :=
  List.filter (fun kv => (0 <? snd kv)%nat)
         (map (fun kv => (fst kv, keyword_score text (snd kv))) INTENT_KEYWORDS).

(** [max(intent_scores, key=intent_scores.get)]: the first key of maximal
    score. *)
Definition best_scored (scores : list (string * nat)) : option (string * nat) :=
  fold_left (fun best kv =>
               match best with
               | None => Some kv
               | Some b => if (snd b <? snd kv)%nat then Some kv else best
               end) scores None.

(** [min(x, 1.0)] *)
Definition cap_one (x : Q) : Q := if Qle_bool x 1 then x else 1%Q.

Definition classify_intent (ticket : json) : result (string * Q) :=
  subject ← get_text ticket "subject";
  body ← get_text ticket "body";
  let text := lower (subject +:+ " " +:+ body) in
  if negb (truthy (strip text)) then Ok ("general_inquiry", 0%Q)
  else
    match best_scored (intent_scores text) with
    | None => Ok ("general_inquiry", (5 # 10)%Q)
    | Some (best_intent, best_score) =>
        Ok (best_intent, cap_one (Z.of_nat best_score # 3)%Q)
    end.

Definition urgency_levels : list string := ["critical"; "high"; "medium"; "low"].

Definition urgency_confidence_of (level : string) : Q :=
  if String.eqb level "critical" then (9 # 10)%Q
  else if String.eqb level "high" then (8 # 10)%Q
  else (7 # 10)%Q.

Definition urgency_keywords_of (level : string) : list string :=
  match assoc level URGENCY_KEYWORDS with
  | Some keywords => keywords
  | None => []
  end.

Definition classify_urgency (ticket : json) : result (string * Q) :=
  p ← py_get ticket "priority" (JStr EmptyString);
  explicit_priority ← match p with
                      | JStr s => Ok (lower s)
                      | _ => Raise AttributeError
                      end;
  if existsb (String.eqb explicit_priority) urgency_levels
  then Ok (explicit_priority, 1%Q)
  else
    subject ← get_text ticket "subject";
    body ← get_text ticket "body";
    let text := lower (subject +:+ " " +:+ body) in
    if negb (truthy (strip text)) then Ok ("medium", (6 # 10)%Q)
    else
      match find (fun level =>
                    existsb (fun keyword => re_search keyword text)
                            (urgency_keywords_of level)) urgency_levels with
      | Some urgency_level => Ok (urgency_level, urgency_confidence_of urgency_level)
      | None => Ok ("medium", (6 # 10)%Q)
      end.

(** [" ".join(words[:n])] when the text has more than [n] words. *)
Definition truncate_words (n : nat) (text : string) : string :=
  let words := split text in
  if (n <? length words)%nat then join " " (take n words) else text.

Definition classify_sentiment (E : Externals) (ticket : json) : result (string * Q) :=
  classifier ← load_classifier_pipeline E;
  subject ← get_text ticket "subject";
  body ← get_text ticket "body";
  let text := combined_text subject body in
  if negb (truthy (strip text)) then Ok ("NEUTRAL", (5 # 10)%Q)
  else
    match classifier (truncate_words 400 text) with
    | Ok (label, score) =>
        if Qle_bool (45 # 100)%Q score && Qle_bool score (55 # 100)%Q
        then Ok ("NEUTRAL", (5 # 10)%Q)
        else Ok (upper label, score)
    | Raise _ => Ok ("NEUTRAL", (5 # 10)%Q)
    end.

Record Classification : Type := {
  c_intent : string;
  c_intent_confidence : Q;
  c_urgency : string;
  c_urgency_confidence : Q;
  c_sentiment : string;
  c_sentiment_confidence : Q
}.

Definition get_classification_summary (E : Externals) (ticket : json)
  : result Classification :=
  '(intent, intent_conf) ← classify_intent ticket;
  '(urgency, urgency_conf) ← classify_urgency ticket;
  '(sentiment, sentiment_conf) ← classify_sentiment E ticket;
  Ok {| c_intent := intent; c_intent_confidence := intent_conf;
        c_urgency := urgency; c_urgency_confidence := urgency_conf;
        c_sentiment := sentiment; c_sentiment_confidence := sentiment_conf |}.

(** ** src/processor/summarizer.py *)

Definition ends_sentence (s : string) : bool :=
  match last_char s with
  | Some c => (code c =? 46)%N || (code c =? 33)%N || (code c =? 63)%N
  | None => false
  end.

(** [generate_summary(ticket)] with its default arguments
    ([max_length=None], [min_length=10]). *)
Definition generate_summary (E : Externals) (ticket : json) : result string :=
  summarizer ← load_summarizer_pipeline E;
  max_length ← env_max_summary_length E;
  subject ← get_text ticket "subject";
  body ← get_text ticket "body";
  if negb (truthy subject) && negb (truthy body) then Ok EmptyString
  else if negb (truthy body) then Ok subject
  else if (length (split body) <? 20)%nat
  then Ok (if truthy subject then subject else str_take 100 body)
  else
    let text := if truthy subject then subject +:+ ". " +:+ body else body in
    match summarizer (truncate_words 700 text) max_length 10%Z with
    | Ok summary_text =>
        let summary := strip summary_text in
        Ok (if truthy summary && negb (ends_sentence summary)
            then summary +:+ "." else summary)
    | Raise _ => Ok (if truthy subject then str_take 100 subject else str_take 100 body)
    end.

(** ** The world of the worker *)

(** One line of the worker's log (the INFO and ERROR calls of worker.py). *)
Inductive event : Type :=
| LogFetching (bucket key : json)
| LogFetched (ticket_id : json)
| LogFetchFailed
| LogProcessing (ticket_id : json)
| LogProcessed (ticket_id : json)
| LogProcessFailed (ticket_id : json)
| LogStoring (ticket_id : string)
| LogStored (ticket_id : string)
| LogStoreFailed (ticket_id : string)
| LogReceived (n : nat)
| LogMessageError
| LogPollError.

(** [self.stats] *)
Record Stats : Type := {
  tickets_processed : nat;
  tickets_failed : nat;
  start_time : nat
}.

(** Everything the worker reads or mutates.

    - [objects] is S3: the body stored under each (bucket, key);
    - [table] is the DynamoDB table, indexed by its composite primary key;
    - [deleted] lists the receipt handles of the messages that
      [delete_message] removed from the queue, oldest first;
    - [faults] schedules the failures of the services: each [get_object],
      [put_item], [put_object] and [delete_message] request consumes the
      head, and fails with [ClientError] when it is [true] (no entry left:
      no failure);
    - [clock] is the instant [datetime.utcnow()] reads. *)
Record World : Type := {
  objects : gmap (string * string) string;
  table : gmap (string * Z) DynamoDBTicket.t;
  deleted : list string;
  stats : Stats;
  log : list event;
  faults : list bool;
  clock : nat
}.

(** *** Statements that may mutate the world and may raise *)

Definition M (A : Type) : Type := World -> World * result A.

#[global] Instance M_ret : MRet M := fun A a w => (w, Ok a).
#[global] Instance M_bind : MBind M := fun A B k m w =>
  match m w with
  | (w', Ok a) => k a w'
  | (w', Raise e) => (w', Raise e)
  end.

Definition lift {A} (r : result A) : M A := fun w => (w, r).
Definition raise {A} (e : exn) : M A := fun w => (w, Raise e).

(** [try: body except Exception as e: handler(e)] *)
Definition try_except {A} (body : M A) (handler : exn -> M A) : M A := fun w =>
  match body w with
  | (w', Ok a) => (w', Ok a)
  | (w', Raise e) => handler e w'
  end.

(** [for x in l: f(x)] *)
Fixpoint for_each {A} (f : A -> M unit) (l : list A) : M unit :=
  match l with
  | [] => mret tt
  | x :: rest => f x;; for_each f rest
  end.

Definition emit (ev : event) : M unit := fun w =>
  ({| objects := objects w; table := table w; deleted := deleted w;
      stats := stats w; log := log w ++ [ev]; faults := faults w;
      clock := clock w |}, Ok tt).

(** The next store request: does it fail?  The schedule moves on. *)
Definition request : M unit := fun w =>
  ({| objects := objects w; table := table w; deleted := deleted w;
      stats := stats w; log := log w; faults := tail (faults w);
      clock := clock w |},
   match faults w with
   | true :: _ => Raise ClientError
   | _ => Ok tt
   end).

(** What the three store requests do once they have reached the store. *)
Definition read_object (bucket key : string) : M string := fun w =>
  (w, match objects w !! (bucket, key) with
      | Some body => Ok body
      | None => Raise ClientError
      end).

Definition write_object (bucket key body : string) : M unit := fun w =>
  ({| objects := <[(bucket, key) := body]> (objects w); table := table w;
      deleted := deleted w; stats := stats w; log := log w;
      faults := faults w; clock := clock w |}, Ok tt).

Definition write_item (item : DynamoDBTicket.t) : M unit := fun w =>
  ({| objects := objects w;
      table := <[DynamoDBTicket.key item := item]> (table w);
      deleted := deleted w; stats := stats w; log := log w;
      faults := faults w; clock := clock w |}, Ok tt).

(** [s3.get_object(Bucket=bucket, Key=key)["Body"].read().decode("utf-8")];
    botocore rejects arguments that are not strings before sending. *)
Definition s3_get_object (bucket key : json) : M string :=
  match bucket, key with
  | JStr b, JStr k => request;; read_object b k
  | _, _ => raise ParamValidationError
  end.

(** [s3.put_object(Bucket=bucket, Key=key, Body=body, ...)] *)
Definition s3_put_object (bucket key body : string) : M unit :=
  request;; write_object bucket key body.

(** [table.put_item(Item=item.dict())] *)
Definition table_put_item (item : DynamoDBTicket.t) : M unit :=
  request;; write_item item.

(** What a delete request does once it has reached the queue. *)
Definition remove_message (handle : string) : M unit := fun w =>
  ({| objects := objects w; table := table w;
      deleted := deleted w ++ [handle]; stats := stats w; log := log w;
      faults := faults w; clock := clock w |}, Ok tt).

(** [sqs.delete_message(QueueUrl=..., ReceiptHandle=handle)]: a request like
    the others; when it fails the message stays in the queue. *)
Definition sqs_delete_message (handle : string) : M unit :=
  request;; remove_message handle.

Definition set_stats (s : Stats) : M unit := fun w =>
  ({| objects := objects w; table := table w; deleted := deleted w;
      stats := s; log := log w; faults := faults w; clock := clock w |}, Ok tt).

(** [self.stats["tickets_processed"] += 1] *)
Definition incr_processed : M unit := fun w =>
  set_stats {| tickets_processed := S (tickets_processed (stats w));
               tickets_failed := tickets_failed (stats w);
               start_time := start_time (stats w) |} w.

(** [self.stats["tickets_failed"] += 1] *)
Definition incr_failed : M unit := fun w =>
  set_stats {| tickets_processed := tickets_processed (stats w);
               tickets_failed := S (tickets_failed (stats w));
               start_time := start_time (stats w) |} w.

(** [datetime.utcnow()]: reads the clock, which then moves on. *)
Definition utcnow : M nat := fun w =>
  ({| objects := objects w; table := table w; deleted := deleted w;
      stats := stats w; log := log w; faults := faults w;
      clock := S (clock w) |}, Ok (clock w)).

(** ** src/processor/worker.py : TicketProcessor *)

(** One entry of [response["Messages"]]. *)
Record Message : Type := {
  Body : string;
  ReceiptHandle : string
}.

Section Worker.
Variable config : ProcessorConfig.
Variable E : Externals.

Definition loads (text : string) : result json :=
  match json_loads E text with
  | Some v => Ok v
  | None => Raise JSONDecodeError
  end.

Definition fetch_ticket_from_s3 (bucket key : json) : M json :=
  emit (LogFetching bucket key);;
  try_except
    (ticket_json ← s3_get_object bucket key;
     ticket ← lift (loads ticket_json);
     ticket_id ← lift (py_get ticket "ticket_id" (JStr "unknown"));
     emit (LogFetched ticket_id);;
     mret ticket)
    (fun e => emit LogFetchFailed;; raise e).

(** The constructor call [RawTicket] on the unpacked dict. *)
Definition RawTicket_of (raw_ticket : json) : result RawTicket.t :=
  match raw_ticket with
  | JObj fields => RawTicket_init E fields
  | _ => Raise TypeError
  end.

Definition process_ticket (raw_ticket : json) : M EnrichedTicket.t :=
  ticket_id ← lift (py_get raw_ticket "ticket_id" (JStr "unknown"));
  emit (LogProcessing ticket_id);;
  try_except
    (ticket ← lift (RawTicket_of raw_ticket);
     embedding ← lift (generate_ticket_embedding E raw_ticket);
     classification ← lift (get_classification_summary E raw_ticket);
     summary ← lift (generate_summary E raw_ticket);
     now ← utcnow;
     enrichment ← lift (EnrichmentData_init embedding
                          (c_intent classification)
                          (c_intent_confidence classification)
                          (c_urgency classification)
                          (c_urgency_confidence classification)
                          (c_sentiment classification)
                          (c_sentiment_confidence classification)
                          summary (utcnow_isoformat E now) "1.0.0");
     let enriched := EnrichedTicket.from_raw ticket enrichment in
     emit (LogProcessed ticket_id);;
     mret enriched)
    (fun e => emit (LogProcessFailed ticket_id);; raise e).

Definition store_results (enriched_ticket : EnrichedTicket.t) : M unit :=
  let ticket_id := EnrichedTicket.ticket_id enriched_ticket in
  emit (LogStoring ticket_id);;
  try_except
    (let dynamo_item := DynamoDBTicket.from_enriched enriched_ticket in
     table_put_item dynamo_item;;
     let enriched_json := model_dump_json E enriched_ticket in
     s3_put_object (enriched_bucket (s3 config)) (ticket_id +:+ ".json")
                   enriched_json;;
     emit (LogStored ticket_id))
    (fun e => emit (LogStoreFailed ticket_id);; raise e).

(** The bucket and key that one record of the message names (lines 240-246
    of worker.py). *)
Definition record_location (record : json) : result (json * json) :=
  has_s3 ← py_in "s3" record;
  if (has_s3 : bool) then
    s3_part ← py_getitem record "s3";
    bucket_part ← py_getitem s3_part "bucket";
    bucket ← py_getitem bucket_part "name";
    s3_part' ← py_getitem record "s3";
    object_part ← py_getitem s3_part' "object";
    key ← py_getitem object_part "key";
    Ok (bucket, key)
  else
    fallback ← py_get record "Key" JNull;
    key ← py_get record "key" fallback;
    Ok (JStr (raw_bucket (s3 config)), key).

(** The body of the inner [for record in body["Records"]] loop. *)
Definition process_record (record : json) : M unit :=
  '(bucket, key) ← lift (record_location record);
  raw_ticket ← fetch_ticket_from_s3 bucket key;
  enriched ← process_ticket raw_ticket;
  store_results enriched;;
  incr_processed.

(** The body of the [try] around one message (lines 233-260). *)
Definition process_message (message : Message) : M unit :=
  body ← lift (loads (Body message));
  has_records ← lift (py_in "Records" body);
  (if (has_records : bool) then
     records ← lift (py_getitem body "Records");
     items ← lift (py_iter records);
     for_each process_record items
   else mret tt);;
  sqs_delete_message (ReceiptHandle message).

(** One turn of [for message in messages]: the [try] and its [except]. *)
Definition handle_message (message : Message) : M unit :=
  try_except (process_message message)
             (fun _ => emit LogMessageError;; incr_failed).

(** [poll_and_process], given what [sqs.receive_message] answered: the
    messages of the response, or the exception of the call. *)
Definition poll_and_process (response : result (list Message)) : M nat :=
  try_except
    (messages ← lift response;
     match messages with
     | [] => mret 0%nat
     | _ :: _ =>
         emit (LogReceived (length messages));;
         for_each handle_message messages;;
         mret (length messages)
     end)
    (fun _ => emit LogPollError;; mret 0%nat).
End Worker.

(** ** Notions used to state the properties of the worker *)

Section Notions.
Variable config : ProcessorConfig.
Variable E : Externals.

(** The records that the loop over one message visits: the items of
    [body["Records"]], none when the body has no such member. *)
Definition message_records (message : Message) : result (list json) :=
  body ← loads E (Body message);
  has_records ← py_in "Records" body;
  if (has_records : bool) then
    records ← py_getitem body "Records";
    py_iter records
  else Ok [].

(** The blob key and the projection key of a ticket. *)
Definition blob_key (ticket_id : string) : string := ticket_id +:+ ".json".

Definition blob_location (ticket_id : string) : string * string :=
  (enriched_bucket (s3 config), blob_key ticket_id).

Definition projection_key (ticket_id : string) (created_at : Z) : string * Z :=
  (ticket_id, created_at).

(** Both stores hold the output for this enriched ticket. *)
Definition durably_written (enriched : EnrichedTicket.t) (w : World) : Prop :=
  table w !! projection_key (EnrichedTicket.ticket_id enriched)
                            (EnrichedTicket.created_at enriched)
    = Some (DynamoDBTicket.from_enriched enriched)
  ∧ objects w !! blob_location (EnrichedTicket.ticket_id enriched)
    = Some (model_dump_json E enriched).

(** The unit named by [record] went through the pipeline from [w] to [w']:
    it was located, fetched, enriched and stored, and both stores hold its
    output when the store step returns. *)
Definition unit_written (w : World) (record : json) (w' : World) : Prop :=
  ∃ bucket key w1 raw_ticket w2 enriched w3,
    record_location config record = Ok (bucket, key)
    ∧ fetch_ticket_from_s3 E bucket key w = (w1, Ok raw_ticket)
    ∧ process_ticket E raw_ticket w1 = (w2, Ok enriched)
    ∧ store_results config E enriched w2 = (w3, Ok tt)
    ∧ durably_written enriched w3
    ∧ incr_processed w3 = (w', Ok tt).

(** Every unit of the list was written, one after the other. *)
Inductive units_written : World -> list json -> World -> Prop :=
| written_nil w : units_written w [] w
| written_cons w record w1 rest w2 :
    unit_written w record w1 ->
    units_written w1 rest w2 ->
    units_written w (record :: rest) w2.






End Notions.

(** ** The units of a message, in the words of the specification

    The specification knows two shapes of message body: a list of event
    records under [Records], each naming a container and a key under
    [s3.bucket.name] and [s3.object.key], and a direct key reference under
    [key], whose container is the configured raw container.  [encoded_units]
    reads a body in that way.  It is written from the specification and does
    not use the worker's own parsing, so that what the worker does with a
    message can be compared with the units the message is meant to encode. *)





Section Units.
Variable config : ProcessorConfig.
Variable E : Externals.


End Units.

Definition in_unit_interval (q : Q) : Prop := (0 <= q)%Q ∧ (q <= 1)%Q.

(** Empty or made of white space only. *)
Fixpoint blank (s : string) : bool :=
  match s with
  | EmptyString => true
  | String c rest => py_isspace c && blank rest
  end.




(** ** Concrete collaborators and inputs

    Used to run the worker on examples.  JSON texts are produced by [render];
    the decoder [toy_loads] inverts it on the documents listed in
    [known_documents] and rejects every other text. *)

Definition dq : string := String (ascii_of_nat 34) EmptyString.

Fixpoint render (v : json) : string :=
  match v with
  | JNull => "null"
  | JBool true => "true"
  | JBool false => "false"
  | JInt z => NilZero.string_of_int (Z.to_int z)
  | JFloat _ => "0.0"   (* no float occurs in the documents below *)
  | JStr s => dq +:+ s +:+ dq
  | JArr l => "[" +:+ join ", " (map render l) +:+ "]"
  | JObj m =>
      "{" +:+ join ", " (map (fun kv => match kv with
                                        | (k, x) => dq +:+ k +:+ dq +:+ ": " +:+ render x
                                        end) m) +:+ "}"
  end.

(** The raw document of the example scenario, and a second ticket. *)
Definition doc_T1 : json :=
  JObj [("ticket_id", JStr "T-1"); ("subject", JStr "Cannot login");
        ("body", JStr "I cannot login since this morning, please help");
        ("created_at", JInt 1700000000); ("customer_id", JStr "C-1");
        ("metadata", JObj [("source", JStr "email")])].

Definition doc_T2 : json :=
  JObj [("ticket_id", JStr "T-2"); ("subject", JStr "Refund");
        ("body", JStr "I was charged twice"); ("priority", JStr "low");
        ("created_at", JInt 1700000100); ("customer_id", JStr "C-2")].

(** The same as [doc_T1] without [customer_id]. *)
Definition doc_no_customer : json :=
  JObj [("ticket_id", JStr "T-3"); ("subject", JStr "Cannot login");
        ("body", JStr "I cannot login since this morning, please help");
        ("created_at", JInt 1700000000);
        ("metadata", JObj [("source", JStr "email")])].

(** One record of an S3 event notification. *)
Definition s3_record (bucket key : string) : json :=
  JObj [("s3", JObj [("bucket", JObj [("name", JStr bucket)]);
                     ("object", JObj [("key", JStr key)])])].

(** A record whose bucket has no name. *)
Definition nameless_record (key : string) : json :=
  JObj [("s3", JObj [("bucket", JObj []);
                     ("object", JObj [("key", JStr key)])])].

Definition body_event_T1 : json := JObj [("Records", JArr [s3_record "tickets-raw" "T-1.json"])].
Definition body_event_T2 : json := JObj [("Records", JArr [s3_record "tickets-raw" "T-2.json"])].
Definition body_direct_key : json := JObj [("key", JStr "T-1.json")].
Definition body_manual_record : json := JObj [("Records", JArr [JObj [("key", JStr "T-1.json")]])].
Definition body_good_then_nameless : json :=
  JObj [("Records", JArr [s3_record "tickets-raw" "T-1.json"; nameless_record "T-2.json"])].
Definition body_three_missing : json :=
  JObj [("Records", JArr [s3_record "tickets-raw" "A.json"; s3_record "tickets-raw" "B.json";
                          s3_record "tickets-raw" "C.json"])].
Definition body_invalid_then_T1 : json :=
  JObj [("Records", JArr [s3_record "tickets-raw" "T-3.json"; s3_record "tickets-raw" "T-1.json"])].

Definition known_documents : list json :=
  [doc_T1; doc_T2; doc_no_customer; body_event_T1; body_event_T2; body_direct_key;
   body_manual_record; body_good_then_nameless; body_three_missing;
   body_invalid_then_T1].

Definition toy_loads (text : string) : option json :=
  find (fun v => String.eqb (render v) text) known_documents.

Definition half_vector : list Q := repeat (1 # 2)%Q 384.

Definition E0 : Externals :=
  {| json_loads := toy_loads;
     int_validate := fun v => match v with JInt z => Some z | _ => None end;
     model_dump_json := fun t =>
       EnrichedTicket.ticket_id t +:+ "|"
       +:+ EnrichmentData.urgency (EnrichedTicket.enrichment t) +:+ "|"
       +:+ EnrichmentData.processed_at (EnrichedTicket.enrichment t);
     load_embedding_model := Ok (fun _ => Ok half_vector);
     load_classifier_pipeline := Ok (fun _ => Ok ("negative", (93 # 100)%Q));
     load_summarizer_pipeline := Ok (fun text _ _ => Ok (str_take 20 text));
     env_max_summary_length := Ok 50%Z;
     utcnow_isoformat := fun n => "t" +:+ NilZero.string_of_uint (Nat.to_uint n) |}.

Definition config0 : ProcessorConfig :=
  {| s3 := {| raw_bucket := "tickets-raw"; enriched_bucket := "tickets-enriched" |};
     sqs := {| queue_name := "ticket-processing-queue"; poll_interval := 20;
               max_messages := 10; visibility_timeout := 300 |};
     table_name := "tickets" |}.

(** The raw bucket holds the three documents; nothing is enriched yet. *)
Definition raw_objects : gmap (string * string) string :=
  <[("tickets-raw", "T-1.json") := render doc_T1]>
  (<[("tickets-raw", "T-2.json") := render doc_T2]>
  (<[("tickets-raw", "T-3.json") := render doc_no_customer]> ∅)).

Definition world0 (schedule : list bool) : World :=
  {| objects := raw_objects; table := ∅; deleted := [];
     stats := {| tickets_processed := 0; tickets_failed := 0; start_time := 0 |};
     log := []; faults := schedule; clock := 0 |}.

Definition message_of (handle : string) (body : json) : Message :=
  {| Body := render body; ReceiptHandle := handle |}.

(** What the pipeline computes for [doc_T1] with the collaborators [E0], at
    the instant printed as [stamp]. *)
Definition enrichment0 (stamp : string) : EnrichmentData.t :=
  EnrichmentData.mk half_vector "login_issue" (2 # 3)%Q "high" (8 # 10)%Q
                    "NEGATIVE" (93 # 100)%Q "Cannot login" stamp "1.0.0".

Definition raw_T1 : RawTicket.t :=
  RawTicket.mk "T-1" "Cannot login" "I cannot login since this morning, please help"
               None 1700000000 "C-1" (TicketMetadata.mk "email" "en" []).

Definition enriched_T1 (stamp : string) : EnrichedTicket.t :=
  EnrichedTicket.from_raw raw_T1 (enrichment0 stamp).

(** ** Notions about statements *)

(** A statement that never raises. *)
Definition total {A} (m : M A) : Prop := ∀ w, ∃ w' a, m w = (w', Ok a).

(** What a statement leaves alone.

    [preserves R m]: running [m] relates the world before to the world after,
    whether [m] returns or raises.  With [R] an equality of projections this
    is a frame property; with [R] a prefix order it says that a log only
    grows. *)
Definition preserves {A} (R : World -> World -> Prop) (m : M A) : Prop :=
  ∀ w, R w (fst (m w)).

(** Only the log, the fault schedule and the clock may differ. *)
Definition quiet (w w' : World) : Prop :=
  objects w = objects w' ∧ table w = table w'
  ∧ deleted w = deleted w' ∧ stats w = stats w'.

(** Nothing was deleted from the queue and no failure was counted. *)
Definition unacked (w w' : World) : Prop :=
  deleted w = deleted w'
  ∧ tickets_failed (stats w) = tickets_failed (stats w').

(** Nothing was deleted from the queue and no counter moved. *)
Definition uncounted (w w' : World) : Prop :=
  deleted w = deleted w' ∧ stats w = stats w'.



(** The tail of [handle_message] when the message failed. *)
Definition count_failure : M unit := emit LogMessageError;; incr_failed.

(** The tail of [handle_message] when every record went through: the
    deletion is requested, inside the [try] of the message, so that a failed
    request is counted as a failure of the message. *)
Definition delete_or_count (handle : string) : M unit :=
  try_except (sqs_delete_message handle) (fun _ => count_failure).

(** Does the next request go through? *)
Definition next_request_succeeds (w : World) : Prop :=
  match faults w with
  | true :: _ => False
  | _ => True
  end.

(** * More of the code *)

(** ** src/processor/summarizer.py : the remaining functions *)

(** [generate_summary(ticket, max_length, min_length)] with explicit
    arguments; [max_length=None] reads the configuration. *)
Definition generate_summary_with (E : Externals) (ticket : json)
    (max_length : option Z) (min_length : Z) : result string :=
  summarizer ← load_summarizer_pipeline E;
  max_length ← match max_length with
               | Some n => Ok n
               | None => env_max_summary_length E
               end;
  subject ← get_text ticket "subject";
  body ← get_text ticket "body";
  if negb (truthy subject) && negb (truthy body) then Ok EmptyString
  else if negb (truthy body) then Ok subject
  else if (length (split body) <? 20)%nat
  then Ok (if truthy subject then subject else str_take 100 body)
  else
    let text := if truthy subject then subject +:+ ". " +:+ body else body in
    match summarizer (truncate_words 700 text) max_length min_length with
    | Ok summary_text =>
        let summary := strip summary_text in
        Ok (if truthy summary && negb (ends_sentence summary)
            then summary +:+ "." else summary)
    | Raise _ => Ok (if truthy subject then str_take 100 subject else str_take 100 body)
    end.

(** [generate_summaries_batch]: one summary per ticket; when a ticket cannot
    be summarised, the handler logs its [ticket_id] and falls back to the
    first 100 characters of its subject. *)
Definition summary_or_fallback (E : Externals) (max_length : option Z)
    (min_length : Z) (ticket : json) : result string :=
  match generate_summary_with E ticket max_length min_length with
  | Ok summary => Ok summary
  | Raise _ =>
      _ ← py_get ticket "ticket_id" JNull;
      subject ← get_text ticket "subject";
      Ok (str_take 100 subject)
  end.

Fixpoint collect {A B} (f : A -> result B) (l : list A) : result (list B) :=
  match l with
  | [] => Ok []
  | x :: rest => y ← f x; ys ← collect f rest; Ok (y :: ys)
  end.

Definition generate_summaries_batch (E : Externals) (tickets : list json)
    (max_length : option Z) (min_length : Z) : result (list string) :=
  collect (summary_or_fallback E max_length min_length) tickets.

(** [s[:n]] for an integer [n] of either sign. *)
Definition py_slice_to (n : Z) (s : string) : string :=
  if (0 <=? n)%Z then str_take (Z.to_nat n) s
  else str_take (Z.to_nat (Z.of_nat (String.length s) + n)) s.

(** What stands before the last space of [s], if [s] has a space. *)
Fixpoint before_last_space (s : string) : option string :=
  match s with
  | EmptyString => None
  | String c rest =>
      match before_last_space rest with
      | Some prefix => Some (String c prefix)
      | None => if (code c =? 32)%N then Some EmptyString else None
      end
  end.

(** [s.rsplit(' ', 1)[0]] *)
Definition rsplit_head (s : string) : string :=
  match before_last_space s with
  | Some prefix => prefix
  | None => s
  end.

Definition summarize_for_display (E : Externals) (ticket : json)
    (max_display_length : Z) : result string :=
  summary ← generate_summary_with E ticket (Some 30%Z) 10%Z;
  if (Z.of_nat (String.length summary) <=? max_display_length)%Z
  then Ok summary
  else
    let truncated := rsplit_head (py_slice_to (max_display_length - 3) summary) in
    Ok (truncated +:+ "...").

(** ** src/processor/embeddings.py : batch_generate_embeddings *)

(** The text prepared for one ticket of the batch. *)
Definition batch_text (ticket : json) : result string :=
  subject ← get_text ticket "subject";
  body ← get_text ticket "body";
  let text := combined_text subject body in
  Ok (if truthy (strip text) then text else " ").

(** [encode_batch] is [model.encode] applied to a list of texts. *)
Definition batch_generate_embeddings (E : Externals)
    (encode_batch : list string -> result (list (list Q)))
    (tickets : list json) : result (list (list Q)) :=
  _ ← load_embedding_model E;
  texts ← collect batch_text tickets;
  encode_batch texts.

(** ** src/processor/models.py : preloading and availability *)

Definition discard {A} (r : result A) : result unit :=
  match r with Ok _ => Ok tt | Raise e => Raise e end.

Definition preload_all_models (E : Externals) : result unit :=
  _ ← discard (load_embedding_model E);
  _ ← discard (load_classifier_pipeline E);
  _ ← discard (load_summarizer_pipeline E);
  Ok tt.

Definition loads_fine {A} (r : result A) : bool :=
  match r with Ok _ => true | Raise _ => false end.

(** The dict that [check_model_availability] returns, in insertion order. *)
Definition check_model_availability (E : Externals) : list (string * bool) :=
  [("embeddings", loads_fine (load_embedding_model E));
   ("classifier", loads_fine (load_classifier_pipeline E));
   ("summarizer", loads_fine (load_summarizer_pipeline E))].

(** ** src/common/schemas.py : S3Event and SQSMessage *)

Module S3Event.
Record S3Object : Type := { key : string; size : Z }.
Record S3Bucket : Type := { name : string }.
Record S3 : Type := { bucket : S3Bucket; object : S3Object }.
Record t : Type := { s3 : S3; eventName : string }.
End S3Event.

(** A field that holds a nested model, given as a dict. *)
Definition model_field (fields : list (string * json)) (k : string)
  : result (list (string * json)) :=
  match assoc k fields with
  | Some (JObj m) => Ok m
  | _ => Raise ValidationError
  end.

Definition S3Event_init (E : Externals) (record : json) : result S3Event.t :=
  match record with
  | JObj fields =>
      s3_fields ← model_field fields "s3";
      bucket_fields ← model_field s3_fields "bucket";
      name ← str_field bucket_fields "name";
      object_fields ← model_field s3_fields "object";
      key ← str_field object_fields "key";
      size ← int_field E object_fields "size";
      eventName ← str_field fields "eventName";
      Ok {| S3Event.s3 :=
              {| S3Event.bucket := {| S3Event.name := name |};
                 S3Event.object := {| S3Event.key := key; S3Event.size := size |} |};
            S3Event.eventName := eventName |}
  | _ => Raise ValidationError
  end.

(** The constructor [SQSMessage] on the unpacked body: the required list
    [Records] of [S3Event]. *)
Definition SQSMessage_init (E : Externals) (body : json) : result (list S3Event.t) :=
  match body with
  | JObj fields =>
      match assoc "Records" fields with
      | Some (JArr records) => collect (S3Event_init E) records
      | _ => Raise ValidationError
      end
  | _ => Raise TypeError
  end.

(** ** Notions about the stores *)

(** No object outside [bucket] has changed. *)
Definition other_buckets_kept (bucket : string) (w w' : World) : Prop :=
  ∀ b k, b ≠ bucket -> objects w' !! (b, k) = objects w !! (b, k).

(** Neither store has lost a key. *)
Definition stores_grow (w w' : World) : Prop :=
  dom (objects w) ⊆ dom (objects w') ∧ dom (table w) ⊆ dom (table w').

(** Every projection points at a blob that exists. *)
Definition pointers_resolve (config : ProcessorConfig) (w : World) : Prop :=
  ∀ row item,
    table w !! row = Some item ->
    is_Some (objects w !! (enriched_bucket (s3 config), DynamoDBTicket.s3_key item)).

(** No request is scheduled to fail. *)
Definition fault_free (w : World) : Prop := Forall (fun b => b = false) (faults w).

(** Going from a fault-free world where the pointers resolve leads to one. *)
Definition keeps_pointers (config : ProcessorConfig) (w w' : World) : Prop :=
  fault_free w -> pointers_resolve config w ->
  fault_free w' ∧ pointers_resolve config w'.


(** ** The fields that the pipeline reads *)

(** The field names of [RawTicket]. *)
Definition RawTicket_fields : list string :=
  ["ticket_id"; "subject"; "body"; "priority"; "created_at"; "customer_id";
   "metadata"].

(** Two dicts that agree on the fields of [RawTicket]. *)
Definition same_ticket_fields (fields fields' : list (string * json)) : Prop :=
  ∀ k, In k RawTicket_fields -> assoc k fields' = assoc k fields.

(** A ticket whose subject and body are text. *)
Definition text_ticket (ticket : json) : Prop :=
  ∃ subject body,
    get_text ticket "subject" = Ok subject ∧ get_text ticket "body" = Ok body.

(** ** More data for the examples *)

(** An S3 event record as S3 sends it, with the size and the event name. *)
Definition full_event (bucket key : string) (size : Z) : json :=
  JObj [("eventName", JStr "ObjectCreated:Put");
        ("s3", JObj [("bucket", JObj [("name", JStr bucket)]);
                     ("object", JObj [("key", JStr key); ("size", JInt size)])])].

Definition body_full_event_T1 : json :=
  JObj [("Records", JArr [full_event "tickets-raw" "T-1.json" 512])].

(** Collaborators whose decoder reads [text] as [v], and otherwise does what
    that of [E] does. *)
Definition with_document (E : Externals) (text : string) (v : json) : Externals :=
  {| json_loads := fun t => if String.eqb t text then Some v else json_loads E t;
     int_validate := int_validate E;
     model_dump_json := model_dump_json E;
     load_embedding_model := load_embedding_model E;
     load_classifier_pipeline := load_classifier_pipeline E;
     load_summarizer_pipeline := load_summarizer_pipeline E;
     env_max_summary_length := env_max_summary_length E;
     utcnow_isoformat := utcnow_isoformat E |}.

(** ** Words *)

(** No character of [s] is white space. *)
Fixpoint spaceless (s : string) : bool :=
  match s with
  | EmptyString => true
  | String c rest => negb (py_isspace c) && spaceless rest
  end.

(** What [split] returns is made of words: not empty, no white space. *)
Definition is_token (s : string) : Prop := truthy s = true ∧ spaceless s = true.

(** ** src/processor/embeddings.py : find_similar_tickets

    [compute_similarity] is numpy arithmetic on floats; the search is
    modelled for an arbitrary [similarity], which stands for
    [compute_similarity(query_embedding, _)]. *)

(** [{**m, k: v}]: the value under [k] is replaced where it stands, or the
    item is added at the end. *)
Fixpoint dict_set (k : string) (v : json) (m : list (string * json))
  : list (string * json) :=
  match m with
  | [] => [(k, v)]
  | (k', v') :: rest =>
      if String.eqb k k' then (k', v) :: rest else (k', v') :: dict_set k v rest
  end.

(** The loop of [find_similar_tickets]: the tickets with an embedding and a
    similarity of at least [min_similarity], each with its similarity. *)
Fixpoint similar_candidates (similarity : json -> result Q) (min_similarity : Q)
    (ticket_embeddings : list (list (string * json)))
  : result (list (Q * list (string * json))) :=
  match ticket_embeddings with
  | [] => Ok []
  | ticket :: rest =>
      match assoc "embedding" ticket with
      | None => similar_candidates similarity min_similarity rest
      | Some embedding =>
          s ← similarity embedding;
          more ← similar_candidates similarity min_similarity rest;
          Ok (if Qle_bool min_similarity s
              then (s, dict_set "similarity" (JFloat s) ticket) :: more
              else more)
      end
  end.

(** [list.sort(key=..., reverse=True)]: descending and stable. *)
Fixpoint insert_desc {A} (x : Q * A) (l : list (Q * A)) : list (Q * A) :=
  match l with
  | [] => [x]
  | y :: rest =>
      if Qle_bool (fst y) (fst x) then x :: l else y :: insert_desc x rest
  end.

Definition sort_desc {A} (l : list (Q * A)) : list (Q * A) :=
  foldr insert_desc [] l.

(** [l[:n]] for an integer [n] of either sign. *)
Definition py_list_slice_to {A} (n : Z) (l : list A) : list A :=
  if (0 <=? n)%Z then take (Z.to_nat n) l
  else take (Z.to_nat (Z.of_nat (length l) + n)) l.

Definition find_similar_tickets (similarity : json -> result Q)
    (ticket_embeddings : list (list (string * json)))
    (top_k : Z) (min_similarity : Q) : result (list (Q * list (string * json))) :=
  similarities ← similar_candidates similarity min_similarity ticket_embeddings;
  Ok (py_list_slice_to top_k (sort_desc similarities)).

(** Highest first. *)
Fixpoint descending {A} (l : list (Q * A)) : Prop :=
  match l with
  | [] => True
  | x :: rest => Forall (fun y => (fst y <= fst x)%Q) rest ∧ descending rest
  end.

(** * Properties *)

(** ** The string and classifier functions on the tickets of the unit tests *)

Example re_search_word : re_search "down" "urgent: system down" = true.
Proof. reflexivity. Qed.

Example re_search_inside_word : re_search "down" "download failed" = false.
Proof. reflexivity. Qed.

Example re_findall_twice : re_findall_count "login" "login, login! loginx" = 2%nat.
Proof. reflexivity. Qed.

Example split_words : split "  how do	I " = ["how"; "do"; "I"].
Proof. reflexivity. Qed.

Example strip_both : strip "  a b  " = "a b".
Proof. reflexivity. Qed.

Example urgency_system_down :
  classify_urgency
    (JObj [("subject", JStr "URGENT: System down");
           ("body", JStr "Our production system is completely down! Emergency!")])
  = Ok ("critical", (9 # 10)%Q).
Proof. reflexivity. Qed.

Example urgency_feature_suggestion :
  classify_urgency
    (JObj [("subject", JStr "Feature suggestion");
           ("body", JStr "Nice to have when possible. No rush.")])
  = Ok ("low", (7 # 10)%Q).
Proof. reflexivity. Qed.

Example urgency_explicit :
  classify_urgency
    (JObj [("subject", JStr "Question"); ("body", JStr "Just wondering about something");
           ("priority", JStr "critical")])
  = Ok ("critical", 1%Q).
Proof. reflexivity. Qed.

Example urgency_null_priority :
  classify_urgency
    (JObj [("subject", JStr "Question"); ("body", JStr "x"); ("priority", JNull)])
  = Raise AttributeError.
Proof. reflexivity. Qed.

Example intent_cannot_login :
  classify_intent
    (JObj [("subject", JStr "Cannot login"); ("body", JStr "Getting error")])
  = Ok ("login_issue", (1 # 3)%Q).
Proof. reflexivity. Qed.

Example intent_empty :
  classify_intent (JObj [("subject", JStr EmptyString); ("body", JStr EmptyString)])
  = Ok ("general_inquiry", 0%Q).
Proof. reflexivity. Qed.

(** ** Running statements *)

Lemma bind_run {A B} (m : M A) (k : A -> M B) (w : World) :
  (m ≫= k) w = match m w with
               | (w', Ok a) => k a w'
               | (w', Raise e) => (w', Raise e)
               end.
Proof. reflexivity. Qed.

Lemma bind_ok_inv {A B} (m : M A) (k : A -> M B) (w w' : World) (b : B) :
  (m ≫= k) w = (w', Ok b) ->
  ∃ a w1, m w = (w1, Ok a) ∧ k a w1 = (w', Ok b).
Proof.
  rewrite bind_run. destruct (m w) as [w1 [a|e]]; intros H.
  - exists a, w1. split; [reflexivity | exact H].
  - discriminate H.
Qed.

Lemma lift_run {A} (r : result A) (w : World) : lift r w = (w, r).
Proof. reflexivity. Qed.

Lemma for_each_app {A} (f : A -> M unit) (l1 l2 : list A) (w : World) :
  for_each f (l1 ++ l2) w =
  match for_each f l1 w with
  | (w1, Ok _) => for_each f l2 w1
  | (w1, Raise e) => (w1, Raise e)
  end.
Proof.
  revert w. induction l1 as [|x l1 IH]; intros w; simpl.
  - reflexivity.
  - rewrite !bind_run. destruct (f x w) as [w1 [[]|e]]; [apply IH | reflexivity].
Qed.

Lemma for_each_total {A} (f : A -> M unit) (l : list A) :
  (∀ x, total (f x)) -> total (for_each f l).
Proof.
  intros Hf. induction l as [|x l IH]; intros w; simpl.
  - exists w, tt. reflexivity.
  - rewrite bind_run. destruct (Hf x w) as (w1 & [] & ->).
    apply IH.
Qed.

(** ** What a statement leaves alone *)

Section Preservation.
Variable R : World -> World -> Prop.
Hypothesis R_refl : ∀ w, R w w.
Hypothesis R_trans : ∀ w1 w2 w3, R w1 w2 -> R w2 w3 -> R w1 w3.

Lemma preserves_ret {A} (a : A) : preserves R (mret a).
Proof. intros w. apply R_refl. Qed.

Lemma preserves_lift {A} (r : result A) : preserves R (lift r).
Proof. intros w. apply R_refl. Qed.

Lemma preserves_raise {A} (e : exn) : preserves R (raise (A:=A) e).
Proof. intros w. apply R_refl. Qed.

Lemma preserves_bind {A B} (m : M A) (k : A -> M B) :
  preserves R m -> (∀ a, preserves R (k a)) -> preserves R (m ≫= k).
Proof.
  intros Hm Hk w. rewrite bind_run. specialize (Hm w).
  destruct (m w) as [w1 [a|e]]; simpl in *.
  - apply R_trans with w1; [exact Hm | apply Hk].
  - exact Hm.
Qed.

Lemma preserves_try_except {A} (body : M A) (handler : exn -> M A) :
  preserves R body -> (∀ e, preserves R (handler e)) ->
  preserves R (try_except body handler).
Proof.
  intros Hb Hh w. unfold try_except. specialize (Hb w).
  destruct (body w) as [w1 [a|e]]; simpl in *.
  - exact Hb.
  - apply R_trans with w1; [exact Hb | apply Hh].
Qed.

Lemma preserves_for_each {A} (f : A -> M unit) (l : list A) :
  (∀ x, preserves R (f x)) -> preserves R (for_each f l).
Proof.
  intros Hf. induction l as [|x l IH]; simpl.
  - apply preserves_ret.
  - apply preserves_bind; [apply Hf | intros _; exact IH].
Qed.

End Preservation.

(** ** Inverting a run that returned *)

Lemma result_bind_ok_inv {A B} (r : result A) (k : A -> result B) (b : B) :
  r ≫= k = Ok b -> ∃ a, r = Ok a ∧ k a = Ok b.
Proof. destruct r as [a|e]; [eauto | discriminate]. Qed.

Lemma lift_ok_inv {A} (r : result A) (w w' : World) (a : A) :
  lift r w = (w', Ok a) -> w' = w ∧ r = Ok a.
Proof. unfold lift. intros H. inversion H. auto. Qed.

(** A handler that logs and raises again never turns a failure into a
    return. *)
Lemma try_reraise_ok_inv {A} (body : M A) (ev : exn -> event) (w w' : World) (a : A) :
  try_except body (fun e => emit (ev e);; raise e) w = (w', Ok a) ->
  body w = (w', Ok a).
Proof.
  unfold try_except. destruct (body w) as [w1 [a1|e]]; [auto | discriminate].
Qed.

Lemma quiet_refl w : quiet w w.
Proof. repeat split. Qed.

Lemma quiet_trans w1 w2 w3 : quiet w1 w2 -> quiet w2 w3 -> quiet w1 w3.
Proof. unfold quiet. intros (?&?&?&?) (?&?&?&?). repeat split; congruence. Qed.

Lemma unacked_refl w : unacked w w.
Proof. split; reflexivity. Qed.

Lemma unacked_trans w1 w2 w3 : unacked w1 w2 -> unacked w2 w3 -> unacked w1 w3.
Proof. unfold unacked. intros (?&?) (?&?). split; congruence. Qed.

Lemma quiet_unacked w w' : quiet w w' -> unacked w w'.
Proof. unfold quiet, unacked. intros (?&?&?&->). auto. Qed.

(** Walks through a statement built from [bind], [try_except], [for_each]
    and the primitives; the leaves are closed by computation. *)
Ltac frame_with refl trans :=
  repeat first
    [ apply preserves_bind; [apply trans | | intros ?]
    | apply preserves_try_except; [apply trans | | intros ?]
    | apply preserves_for_each; [apply refl | apply trans | intros ?]
    | apply preserves_lift; apply refl
    | apply preserves_raise; apply refl
    | apply preserves_ret; apply refl
    | match goal with |- preserves _ (let x := _ in _) => cbv zeta end
    | match goal with |- preserves _ (match ?x with _ => _ end) => destruct x end
    | (intros ?w; repeat split; reflexivity) ].

Section WorkerFrames.
Variable config : ProcessorConfig.
Variable E : Externals.

Lemma fetch_quiet bucket key : preserves quiet (fetch_ticket_from_s3 E bucket key).
Proof.
  unfold fetch_ticket_from_s3, s3_get_object.
  frame_with quiet_refl quiet_trans.
Qed.

Lemma process_ticket_quiet raw : preserves quiet (process_ticket E raw).
Proof. unfold process_ticket. frame_with quiet_refl quiet_trans. Qed.

Lemma store_results_unacked enriched :
  preserves unacked (store_results config E enriched).
Proof.
  unfold store_results, table_put_item, s3_put_object.
  frame_with unacked_refl unacked_trans.
Qed.

Lemma uncounted_refl w : uncounted w w.
Proof. split; reflexivity. Qed.

Lemma uncounted_trans w1 w2 w3 : uncounted w1 w2 -> uncounted w2 w3 -> uncounted w1 w3.
Proof. unfold uncounted. intros (?&?) (?&?). split; congruence. Qed.

Lemma store_results_uncounted enriched :
  preserves uncounted (store_results config E enriched).
Proof.
  unfold store_results, table_put_item, s3_put_object.
  frame_with uncounted_refl uncounted_trans.
Qed.

(** A fetched document is a JSON object. *)
Lemma fetch_returns_object bucket key w w' raw_ticket :
  fetch_ticket_from_s3 E bucket key w = (w', Ok raw_ticket) ->
  ∃ fields, raw_ticket = JObj fields.
Proof.
  unfold fetch_ticket_from_s3. intros H.
  apply bind_ok_inv in H as ([] & w1 & _ & H).
  apply (try_reraise_ok_inv _ (fun _ => LogFetchFailed)) in H.
  apply bind_ok_inv in H as (text & w3 & _ & H).
  apply bind_ok_inv in H as (ticket & w4 & _ & H).
  apply bind_ok_inv in H as (ticket_id & w5 & Hget & H).
  apply bind_ok_inv in H as ([] & w6 & _ & H).
  inversion H; subst; clear H.
  apply lift_ok_inv in Hget as [_ Hget].
  destruct raw_ticket; try discriminate Hget. eauto.
Qed.

Lemma preserves_weaken {A} (R1 R2 : World -> World -> Prop) (m : M A) :
  (∀ w w', R1 w w' -> R2 w w') -> preserves R1 m -> preserves R2 m.
Proof. intros H Hm w. apply H, Hm. Qed.

Lemma process_record_unacked record :
  preserves unacked (process_record config E record).
Proof.
  unfold process_record.
  apply preserves_bind; [apply unacked_trans | | intros [bucket key]].
  { apply preserves_lift, unacked_refl. }
  apply preserves_bind; [apply unacked_trans | | intros raw].
  { apply (preserves_weaken quiet); [apply quiet_unacked | apply fetch_quiet]. }
  apply preserves_bind; [apply unacked_trans | | intros enriched].
  { apply (preserves_weaken quiet); [apply quiet_unacked | apply process_ticket_quiet]. }
  apply preserves_bind; [apply unacked_trans | | intros _].
  { apply store_results_unacked. }
  intros w. split; reflexivity.
Qed.

Lemma records_unacked records :
  preserves unacked (for_each (process_record config E) records).
Proof.
  apply preserves_for_each;
    [apply unacked_refl | apply unacked_trans | apply process_record_unacked].
Qed.
End WorkerFrames.

(** ** The two store writes *)

Section StoreResults.
Variable config : ProcessorConfig.
Variable E : Externals.

Lemma store_results_ok enriched w w' :
  store_results config E enriched w = (w', Ok tt) ->
  table w' = <[DynamoDBTicket.key (DynamoDBTicket.from_enriched enriched)
               := DynamoDBTicket.from_enriched enriched]> (table w)
  ∧ objects w' = <[blob_location config (EnrichedTicket.ticket_id enriched)
                   := model_dump_json E enriched]> (objects w).
Proof.
  destruct w as [o t d s l f c].
  destruct f as [|[] [|[] f]]; simpl; intros H; inversion H; subst;
    split; reflexivity.
Qed.

(** The log tells the two outcomes apart: "stored" is logged exactly when
    both writes went through. *)
Lemma store_results_log enriched w :
  let ticket_id := EnrichedTicket.ticket_id enriched in
  let w' := fst (store_results config E enriched w) in
  match snd (store_results config E enriched w) with
  | Ok _ => log w' = log w ++ [LogStoring ticket_id; LogStored ticket_id]
  | Raise _ => log w' = log w ++ [LogStoring ticket_id; LogStoreFailed ticket_id]
  end.
Proof.
  destruct w as [o t d s l f c].
  destruct f as [|[] [|[] f]]; simpl; rewrite <- app_assoc; reflexivity.
Qed.

Lemma store_results_durable enriched w w' :
  store_results config E enriched w = (w', Ok tt) ->
  durably_written config E enriched w'.
Proof.
  intros H. apply store_results_ok in H as [Ht Ho].
  split.
  - rewrite Ht. apply lookup_insert_eq.
  - rewrite Ho. apply lookup_insert_eq.
Qed.
End StoreResults.

(** C1, as the code has it.  [store_results] sends the projection to the
    table first and the blob to the bucket second.  When the first request
    fails nothing is written; when the first succeeds and the second fails,
    the projection is in the table and the bucket is as it was; otherwise
    both are written. *)
Theorem store_results_write_order (config : ProcessorConfig) (E : Externals)
    (enriched : EnrichedTicket.t) (w : World) :
  let item := DynamoDBTicket.from_enriched enriched in
  let place := blob_location config (EnrichedTicket.ticket_id enriched) in
  let w' := fst (store_results config E enriched w) in
  let r := snd (store_results config E enriched w) in
  match faults w with
  | true :: _ =>
      r = Raise ClientError ∧ table w' = table w ∧ objects w' = objects w
  | false :: true :: _ =>
      r = Raise ClientError
      ∧ table w' = <[DynamoDBTicket.key item := item]> (table w)
      ∧ objects w' = objects w
  | _ =>
      r = Ok tt
      ∧ table w' = <[DynamoDBTicket.key item := item]> (table w)
      ∧ objects w' = <[place := model_dump_json E enriched]> (objects w)
  end.
Proof.
  destruct w as [o t d s l f c]. simpl.
  destruct f as [|[] [|[] f]]; simpl; repeat split.
Qed.

(** C1, as stated, fails: with the first request served and the second one
    failing, the projection of T-1 is in the table and no blob is in the
    enriched bucket. *)
Lemma failure_between_writes_leaves_projection_without_blob :
  let w := world0 [false; true] in
  let w' := fst (store_results config0 E0 (enriched_T1 "t0") w) in
  snd (store_results config0 E0 (enriched_T1 "t0") w) = Raise ClientError
  ∧ table w' !! ("T-1", 1700000000%Z)
    = Some (DynamoDBTicket.from_enriched (enriched_T1 "t0"))
  ∧ objects w' !! ("tickets-enriched", "T-1.json") = None.
Proof. vm_compute. repeat split. Qed.

(** C8.  The places written for a ticket depend on the raw ticket only: the
    projection goes under [(ticket_id, created_at)], its [s3_key] is the blob
    key [ticket_id ++ ".json"], and the blob goes under that key.  Storing
    the output of the same raw ticket a second time, with whatever enrichment
    the second run computed, overwrites both entries: each store holds the
    second output at the same place, and no entry is added. *)
Theorem storage_keys_deterministic (config : ProcessorConfig) (E : Externals)
    (raw : RawTicket.t) (e1 e2 : EnrichmentData.t) (w w1 w2 : World) :
  let first := EnrichedTicket.from_raw raw e1 in
  let second := EnrichedTicket.from_raw raw e2 in
  let row := projection_key (RawTicket.ticket_id raw) (RawTicket.created_at raw) in
  let place := blob_location config (RawTicket.ticket_id raw) in
  store_results config E first w = (w1, Ok tt) ->
  store_results config E second w1 = (w2, Ok tt) ->
  DynamoDBTicket.key (DynamoDBTicket.from_enriched first) = row
  ∧ DynamoDBTicket.key (DynamoDBTicket.from_enriched second) = row
  ∧ DynamoDBTicket.s3_key (DynamoDBTicket.from_enriched first)
    = blob_key (RawTicket.ticket_id raw)
  ∧ place = (enriched_bucket (s3 config), RawTicket.ticket_id raw +:+ ".json")
  ∧ table w1 = <[row := DynamoDBTicket.from_enriched first]> (table w)
  ∧ objects w1 = <[place := model_dump_json E first]> (objects w)
  ∧ table w2 = <[row := DynamoDBTicket.from_enriched second]> (table w)
  ∧ objects w2 = <[place := model_dump_json E second]> (objects w)
  ∧ dom (table w2) = dom (table w1)
  ∧ dom (objects w2) = dom (objects w1).
Proof.
  intros first second row place H1 H2.
  apply store_results_ok in H1 as [Ht1 Ho1].
  apply store_results_ok in H2 as [Ht2 Ho2].
  change (DynamoDBTicket.key (DynamoDBTicket.from_enriched second)) with row in Ht2.
  change (DynamoDBTicket.key (DynamoDBTicket.from_enriched first)) with row in Ht1.
  change (blob_location config (EnrichedTicket.ticket_id second)) with place in Ho2.
  change (blob_location config (EnrichedTicket.ticket_id first)) with place in Ho1.
  assert (Ht : table w2 = <[row := DynamoDBTicket.from_enriched second]> (table w)).
  { rewrite Ht2, Ht1. apply insert_insert_eq. }
  assert (Ho : objects w2 = <[place := model_dump_json E second]> (objects w)).
  { rewrite Ho2, Ho1. apply insert_insert_eq. }
  repeat split; try assumption.
  - rewrite Ht, Ht1, !dom_insert_L. reflexivity.
  - rewrite Ho, Ho1, !dom_insert_L. reflexivity.
Qed.

(** What [process_ticket] returns carries the fields of the validated raw
    document, so two runs on the same document differ in the enrichment
    only. *)
Lemma process_ticket_keeps_raw_fields (E : Externals) (raw_ticket : json)
    (w w' : World) (enriched : EnrichedTicket.t) :
  process_ticket E raw_ticket w = (w', Ok enriched) ->
  ∃ ticket, RawTicket_of E raw_ticket = Ok ticket
            ∧ enriched = EnrichedTicket.from_raw ticket
                           (EnrichedTicket.enrichment enriched).
Proof.
  unfold process_ticket. intros H.
  apply bind_ok_inv in H as (ticket_id & w1 & _ & H).
  apply bind_ok_inv in H as ([] & w2 & _ & H).
  apply (try_reraise_ok_inv _ (fun _ => LogProcessFailed ticket_id)) in H.
  apply bind_ok_inv in H as (ticket & w3 & Hticket & H).
  apply bind_ok_inv in H as (embedding & w4 & _ & H).
  apply bind_ok_inv in H as (classification & w5 & _ & H).
  apply bind_ok_inv in H as (summary & w6 & _ & H).
  apply bind_ok_inv in H as (now & w7 & _ & H).
  apply bind_ok_inv in H as (enrichment & w8 & _ & H).
  apply bind_ok_inv in H as ([] & w9 & _ & H).
  inversion H; subst; clear H.
  apply lift_ok_inv in Hticket as [_ Hticket].
  exists ticket. split; [exact Hticket | reflexivity].
Qed.

Lemma storage_keys_deterministic_witness :
  let w1 := fst (store_results config0 E0 (enriched_T1 "t0") (world0 [])) in
  let w2 := fst (store_results config0 E0 (enriched_T1 "t1") w1) in
  table w2 = <[("T-1", 1700000000%Z)
               := DynamoDBTicket.from_enriched (enriched_T1 "t1")]> ∅
  ∧ dom (table w2) = dom (table w1)
  ∧ dom (objects w2) = dom (objects w1).
Proof.
  intros w1 w2.
  destruct (storage_keys_deterministic config0 E0 raw_T1
              (enrichment0 "t0") (enrichment0 "t1") (world0 []) w1 w2)
    as (_ & _ & _ & _ & _ & _ & Ht & _ & Hd1 & Hd2).
  - vm_compute. reflexivity.
  - vm_compute. reflexivity.
  - split; [exact Ht | split; [exact Hd1 | exact Hd2]].
Defined.

(** ** Classification stays in range *)

Lemma unit_interval_spec (q : Q) : unit_interval q = true -> in_unit_interval q.
Proof.
  unfold unit_interval, in_unit_interval. intros H.
  apply andb_prop in H as [H0 H1]. split; apply Qle_bool_iff; assumption.
Qed.

Lemma urgency_confidence_of_range (level : string) :
  in_unit_interval (urgency_confidence_of level).
Proof.
  unfold urgency_confidence_of.
  destruct (String.eqb level "critical"); [split; discriminate |].
  destruct (String.eqb level "high"); split; discriminate.
Qed.

Lemma classify_urgency_range (ticket : json) (urgency : string) (confidence : Q) :
  classify_urgency ticket = Ok (urgency, confidence) ->
  In urgency urgency_levels ∧ in_unit_interval confidence.
Proof.
  unfold classify_urgency. intros H.
  apply result_bind_ok_inv in H as (p & _ & H).
  apply result_bind_ok_inv in H as (explicit & _ & H).
  destruct (existsb (String.eqb explicit) urgency_levels) eqn:Hex.
  - inversion H; subst. split; [| split; discriminate].
    apply existsb_exists in Hex as (level & Hin & Heq).
    apply String.eqb_eq in Heq. subst. exact Hin.
  - apply result_bind_ok_inv in H as (subject & _ & H).
    apply result_bind_ok_inv in H as (body & _ & H).
    destruct (negb _).
    + inversion H; subst. split; [simpl; tauto | split; discriminate].
    + destruct (find _ urgency_levels) as [level|] eqn:Hfind.
      * inversion H; subst. split.
        -- apply find_some in Hfind as [Hin _]. exact Hin.
        -- apply urgency_confidence_of_range.
      * inversion H; subst. split; [simpl; tauto | split; discriminate].
Qed.

Lemma cap_one_range (n : nat) : in_unit_interval (cap_one (Z.of_nat n # 3)).
Proof.
  unfold cap_one. destruct (Qle_bool (Z.of_nat n # 3) 1) eqn:Hle.
  - split; [| apply Qle_bool_iff; exact Hle].
    unfold Qle. simpl. lia.
  - split; discriminate.
Qed.

Lemma classify_intent_range (ticket : json) (intent : string) (confidence : Q) :
  classify_intent ticket = Ok (intent, confidence) -> in_unit_interval confidence.
Proof.
  unfold classify_intent. intros H.
  apply result_bind_ok_inv in H as (subject & _ & H).
  apply result_bind_ok_inv in H as (body & _ & H).
  destruct (negb _).
  - inversion H; subst. split; discriminate.
  - destruct (best_scored _) as [[best score]|].
    + inversion H; subst. apply cap_one_range.
    + inversion H; subst. split; discriminate.
Qed.

(** C9.  Every enrichment that [process_ticket] returns has its three
    confidences in [0,1], and its urgency is one of critical, high, medium,
    low. *)
Theorem enrichment_bounds (E : Externals) (raw_ticket : json) (w w' : World)
    (enriched : EnrichedTicket.t) :
  process_ticket E raw_ticket w = (w', Ok enriched) ->
  let e := EnrichedTicket.enrichment enriched in
  in_unit_interval (EnrichmentData.intent_confidence e)
  ∧ in_unit_interval (EnrichmentData.urgency_confidence e)
  ∧ in_unit_interval (EnrichmentData.sentiment_confidence e)
  ∧ In (EnrichmentData.urgency e) ["critical"; "high"; "medium"; "low"].
Proof.
  unfold process_ticket. intros H.
  apply bind_ok_inv in H as (ticket_id & w1 & _ & H).
  apply bind_ok_inv in H as ([] & w2 & _ & H).
  apply (try_reraise_ok_inv _ (fun _ => LogProcessFailed ticket_id)) in H.
  apply bind_ok_inv in H as (ticket & w3 & _ & H).
  apply bind_ok_inv in H as (embedding & w4 & _ & H).
  apply bind_ok_inv in H as (classification & w5 & Hc & H).
  apply bind_ok_inv in H as (summary & w6 & _ & H).
  apply bind_ok_inv in H as (now & w7 & _ & H).
  apply bind_ok_inv in H as (enrichment & w8 & He & H).
  apply bind_ok_inv in H as ([] & w9 & _ & H).
  inversion H; subst; clear H. simpl.
  apply lift_ok_inv in He as [_ He].
  apply lift_ok_inv in Hc as [_ Hc].
  unfold EnrichmentData_init in He.
  destruct (unit_interval (c_intent_confidence classification)) eqn:H1;
    [| discriminate He].
  destruct (unit_interval (c_urgency_confidence classification)) eqn:H2;
    [| discriminate He].
  destruct (unit_interval (c_sentiment_confidence classification)) eqn:H3;
    [| discriminate He].
  inversion He; subst; clear He. simpl.
  repeat split; try (apply unit_interval_spec; assumption).
  unfold get_classification_summary in Hc.
  apply result_bind_ok_inv in Hc as ([intent ic] & _ & Hc).
  apply result_bind_ok_inv in Hc as ([urgency uc] & Hu & Hc).
  apply result_bind_ok_inv in Hc as ([sentiment sc] & _ & Hc).
  inversion Hc; subst; clear Hc. simpl.
  apply classify_urgency_range in Hu as [Hin _]. exact Hin.
Qed.

Lemma enrichment_bounds_witness :
  in_unit_interval (2 # 3)%Q ∧ in_unit_interval (8 # 10)%Q
  ∧ in_unit_interval (93 # 100)%Q
  ∧ In "high" ["critical"; "high"; "medium"; "low"].
Proof.
  apply (enrichment_bounds E0 doc_T1 (world0 [])
           (fst (process_ticket E0 doc_T1 (world0 []))) (enriched_T1 "t0")).
  vm_compute. reflexivity.
Defined.

(** The example scenario: the document of T-1 is processed and stored. *)
Example scenario_T1 :
  let w' := fst (poll_and_process config0 E0
                   (Ok [message_of "rh-1" body_event_T1]) (world0 [])) in
  snd (process_ticket E0 doc_T1 (world0 [])) = Ok (enriched_T1 "t0")
  ∧ table w' !! ("T-1", 1700000000%Z)
    = Some (DynamoDBTicket.from_enriched (enriched_T1 "t0"))
  ∧ DynamoDBTicket.s3_key (DynamoDBTicket.from_enriched (enriched_T1 "t0"))
    = "T-1.json"
  ∧ objects w' !! ("tickets-enriched", "T-1.json")
    = Some (model_dump_json E0 (enriched_T1 "t0"))
  ∧ deleted w' = ["rh-1"].
Proof. vm_compute. repeat split. Qed.

(** ** The embedding of an empty text *)

Lemma blank_lstrip (s : string) : blank s = true -> lstrip s = EmptyString.
Proof.
  induction s as [|c s IH]; simpl; [reflexivity |].
  intros H. apply andb_prop in H as [Hc Hs]. rewrite Hc. auto.
Qed.

Lemma blank_strip (s : string) : blank s = true -> strip s = EmptyString.
Proof. intros H. unfold strip. rewrite (blank_lstrip s H). reflexivity. Qed.

Lemma blank_rev_app (s1 s2 : string) :
  blank (String.rev_app s1 s2) = blank s1 && blank s2.
Proof.
  revert s2. induction s1 as [|c s1 IH]; intros s2; simpl; [reflexivity |].
  rewrite IH. simpl. destruct (py_isspace c), (blank s1); reflexivity.
Qed.

Lemma blank_rev (s : string) : blank (String.rev s) = blank s.
Proof. unfold String.rev. rewrite blank_rev_app. simpl. apply andb_true_r. Qed.

Lemma lstrip_blank (s : string) : lstrip s = EmptyString -> blank s = true.
Proof.
  induction s as [|c s IH]; simpl; [reflexivity |].
  destruct (py_isspace c); [exact IH | discriminate].
Qed.

Lemma blank_lstrip_eq (s : string) : blank (lstrip s) = blank s.
Proof.
  induction s as [|c s IH]; simpl; [reflexivity |].
  destruct (py_isspace c) eqn:Hc; simpl; [exact IH | rewrite Hc; reflexivity].
Qed.

Lemma rev_app_empty (s1 s2 : string) :
  String.rev_app s1 s2 = EmptyString -> s1 = EmptyString ∧ s2 = EmptyString.
Proof.
  revert s2. induction s1 as [|c s1 IH]; intros s2; simpl.
  - auto.
  - intros H. apply IH in H as [_ H]. discriminate H.
Qed.

Lemma rev_empty (s : string) : String.rev s = EmptyString -> s = EmptyString.
Proof. intros H. apply rev_app_empty in H as [H _]. exact H. Qed.

(** [not text.strip()] holds exactly for the blank texts. *)
Lemma strip_truthy (s : string) : truthy (strip s) = negb (blank s).
Proof.
  destruct (blank s) eqn:Hb.
  - rewrite (blank_strip s Hb). reflexivity.
  - unfold strip, rstrip.
    destruct (String.rev (lstrip (String.rev (lstrip s)))) eqn:Hs; [| reflexivity].
    apply rev_empty, lstrip_blank in Hs.
    rewrite blank_rev, blank_lstrip_eq, Hb in Hs. discriminate Hs.
Qed.

Lemma blank_app (s1 s2 : string) : blank (s1 +:+ s2) = blank s1 && blank s2.
Proof.
  induction s1 as [|c s1 IH]; simpl; [reflexivity |].
  rewrite IH. apply andb_assoc.
Qed.

(** The whole of [generate_ticket_embedding] once the model is loaded: zeros
    for a blank combined text, the model's vector otherwise. *)
Lemma generate_ticket_embedding_run (E : Externals) (ticket : json)
    (model : string -> result (list Q)) (subject body : string) :
  load_embedding_model E = Ok model ->
  get_text ticket "subject" = Ok subject ->
  get_text ticket "body" = Ok body ->
  generate_ticket_embedding E ticket
  = if blank (combined_text subject body) then Ok zero_vector
    else model (combined_text subject body).
Proof.
  intros Hload Hs Hb. unfold generate_ticket_embedding.
  rewrite Hload, Hs, Hb. cbn. rewrite strip_truthy, negb_involutive.
  reflexivity.
Qed.

(** With a subject and a body that are both non-empty, the combined text
    holds a full stop, and the model is run on it. *)
Lemma two_fields_reach_the_model (E : Externals) (ticket : json)
    (model : string -> result (list Q)) (subject body : string) :
  load_embedding_model E = Ok model ->
  get_text ticket "subject" = Ok subject ->
  get_text ticket "body" = Ok body ->
  truthy subject = true ->
  truthy body = true ->
  generate_ticket_embedding E ticket = model (subject +:+ ". " +:+ body).
Proof.
  intros Hload Hs Hb Ts Tb.
  rewrite (generate_ticket_embedding_run E ticket model subject body Hload Hs Hb).
  unfold combined_text. rewrite Ts, Tb. simpl.
  rewrite blank_app. simpl. rewrite andb_false_r. reflexivity.
Qed.

Lemma zero_vector_zero : Forall (fun x => x = 0%Q) zero_vector.
Proof. unfold zero_vector. apply List.Forall_forall. intros x Hx.
  apply repeat_spec in Hx. exact Hx. Qed.

(** C10, as the code has it.  When the embedding model loads, and one of
    subject and body is empty while the other is empty or made of white space
    only, [generate_ticket_embedding] returns the vector of 384 zeros,
    whatever the model would compute: the model is not run. *)
Theorem empty_text_zero_embedding (E : Externals) (ticket : json)
    (model : string -> result (list Q)) (subject body : string) :
  load_embedding_model E = Ok model ->
  get_text ticket "subject" = Ok subject ->
  get_text ticket "body" = Ok body ->
  blank subject = true ->
  blank body = true ->
  subject = EmptyString ∨ body = EmptyString ->
  generate_ticket_embedding E ticket = Ok zero_vector
  ∧ length zero_vector = 384%nat
  ∧ Forall (fun x => x = 0%Q) zero_vector.
Proof.
  intros Hload Hs Hb Bs Bb Hempty.
  split; [| split; [reflexivity | apply zero_vector_zero]].
  unfold generate_ticket_embedding. rewrite Hload, Hs, Hb. cbn.
  assert (Hblank : blank (combined_text subject body) = true).
  { unfold combined_text. destruct Hempty as [-> | ->].
    - simpl. exact Bb.
    - rewrite andb_false_r. destruct (truthy subject); [exact Bs | reflexivity]. }
  rewrite (blank_strip _ Hblank). reflexivity.
Qed.

Lemma empty_text_zero_embedding_witness :
  generate_ticket_embedding E0
    (JObj [("subject", JStr EmptyString); ("body", JStr "   ")]) = Ok zero_vector
  ∧ length zero_vector = 384%nat
  ∧ Forall (fun x => x = 0%Q) zero_vector.
Proof.
  apply (empty_text_zero_embedding E0 _ (fun _ => Ok half_vector) EmptyString "   ");
    first [reflexivity | left; reflexivity].
Defined.

(** C10, as stated, fails: subject and body are one space each, the combined
    text is [" .  "], which is not blank, and the vector returned is the one
    the model computes, not the zero vector. *)
Lemma whitespace_subject_and_body_reach_the_model :
  blank " " = true
  ∧ combined_text " " " " = " .  "
  ∧ generate_ticket_embedding E0
      (JObj [("subject", JStr " "); ("body", JStr " ")]) = Ok half_vector
  ∧ half_vector ≠ zero_vector.
Proof.
  repeat split; try reflexivity.
  unfold half_vector, zero_vector. simpl. discriminate.
Qed.

(** ** Schema validation *)

Section Validation.
Variable config : ProcessorConfig.
Variable E : Externals.





End Validation.



(** ** One message *)

Section OneMessage.
Variable config : ProcessorConfig.
Variable E : Externals.

Lemma process_message_run message w :
  process_message config E message w =
  match message_records E message with
  | Raise e => (w, Raise e)
  | Ok records =>
      match for_each (process_record config E) records w with
      | (w1, Ok _) => sqs_delete_message (ReceiptHandle message) w1
      | (w1, Raise e) => (w1, Raise e)
      end
  end.
Proof.
  unfold process_message, message_records, mbind, M_bind, result_bind, lift.
  destruct (loads E (Body message)) as [body|e]; [| reflexivity].
  destruct (py_in "Records" body) as [[]|e]; [| reflexivity | reflexivity].
  destruct (py_getitem body "Records") as [records|e]; [| reflexivity].
  destruct (py_iter records) as [items|e]; [| reflexivity].
  destruct (for_each (process_record config E) items w) as [w1 [[]|e]];
    reflexivity.
Qed.

(** The two ways a delete request ends; either way the turn of the message
    returns and the stores are as they were. *)
Lemma delete_or_count_cases handle w :
  let w' := fst (delete_or_count handle w) in
  snd (delete_or_count handle w) = Ok tt
  ∧ objects w' = objects w ∧ table w' = table w
  ∧ tickets_processed (stats w') = tickets_processed (stats w)
  ∧ ((next_request_succeeds w
      ∧ deleted w' = deleted w ++ [handle]
      ∧ tickets_failed (stats w') = tickets_failed (stats w)
      ∧ log w' = log w)
     ∨ (¬ next_request_succeeds w
        ∧ deleted w' = deleted w
        ∧ tickets_failed (stats w') = S (tickets_failed (stats w))
        ∧ log w' = log w ++ [LogMessageError])).
Proof.
  destruct w as [o t d s l f c]. unfold next_request_succeeds.
  destruct f as [|[] f]; simpl; repeat split; auto;
    right; repeat split; auto.
Qed.

Lemma handle_message_run message w :
  handle_message config E message w =
  match message_records E message with
  | Raise _ => count_failure w
  | Ok records =>
      match for_each (process_record config E) records w with
      | (w1, Ok _) => delete_or_count (ReceiptHandle message) w1
      | (w1, Raise _) => count_failure w1
      end
  end.
Proof.
  unfold handle_message, try_except. rewrite process_message_run.
  destruct (message_records E message) as [records|e]; [| reflexivity].
  destruct (for_each (process_record config E) records w) as [w1 [[]|e]];
    reflexivity.
Qed.

Lemma handle_message_total message : total (handle_message config E message).
Proof.
  intros w. rewrite handle_message_run.
  destruct (message_records E message) as [records|e].
  - destruct (for_each (process_record config E) records w) as [w1 [[]|e]].
    + pose proof (delete_or_count_cases (ReceiptHandle message) w1) as [Hret _].
      destruct (delete_or_count (ReceiptHandle message) w1) as [w2 r].
      simpl in Hret. subst r. eexists _, tt; reflexivity.
    + eexists _, tt; reflexivity.
  - eexists _, tt; reflexivity.
Qed.

(** A unit went through exactly when the loop body returned. *)
Lemma process_record_ok_iff record w w' :
  process_record config E record w = (w', Ok tt)
  ↔ unit_written config E w record w'.
Proof.
  split.
  - unfold process_record. intros H.
    apply bind_ok_inv in H as ([bucket key] & w0 & Hloc & H).
    apply lift_ok_inv in Hloc as [-> Hloc].
    apply bind_ok_inv in H as (raw & w1 & Hfetch & H).
    apply bind_ok_inv in H as (enriched & w2 & Hproc & H).
    apply bind_ok_inv in H as ([] & w3 & Hstore & H).
    exists bucket, key, w1, raw, w2, enriched, w3.
    repeat split; try assumption.
    + apply (store_results_durable config E enriched w2 w3 Hstore).
    + apply (store_results_durable config E enriched w2 w3 Hstore).
  - intros (bucket & key & w1 & raw & w2 & enriched & w3
            & Hloc & Hfetch & Hproc & Hstore & _ & Hincr).
    unfold process_record.
    rewrite bind_run, lift_run, Hloc, bind_run, Hfetch, bind_run, Hproc,
      bind_run, Hstore.
    exact Hincr.
Qed.

Lemma records_ok_iff records w w' :
  for_each (process_record config E) records w = (w', Ok tt)
  ↔ units_written config E w records w'.
Proof.
  revert w. induction records as [|record rest IH]; intros w; simpl.
  - split.
    + intros H. inversion H; subst. constructor.
    + intros H. inversion H; subst. reflexivity.
  - rewrite bind_run. split.
    + destruct (process_record config E record w) as [w1 [[]|e]] eqn:Hrec;
        [| discriminate].
      intros H. apply (written_cons config E w record w1).
      * apply process_record_ok_iff. exact Hrec.
      * apply IH. exact H.
    + intros H. inversion H as [|? ? w1 ? ? Hunit Hrest]; subst.
      apply process_record_ok_iff in Hunit. rewrite Hunit.
      apply IH. exact Hrest.
Qed.


End OneMessage.

(** ** The units of a message and the records of the loop *)

Section EncodedUnits.
Variable config : ProcessorConfig.
Variable E : Externals.











End EncodedUnits.




(** ** Messages without event records *)

(** C3, as the code has it.  A record of the [Records] list that has no [s3]
    member names the configured raw bucket and the key under ["key"] (or,
    failing that, under ["Key"]), and goes through the same fetch, enrich and
    store steps as any record.  A body that is an object without [Records],
    such as a bare key reference, encodes no unit: handling the message
    asks for its deletion, inside the [try] of the message, and does nothing
    else; when the request goes through, handling the message is deleting
    it. *)
Theorem manual_record_defaults_to_raw_bucket (config : ProcessorConfig)
    (E : Externals) :
  (∀ fields key,
     assoc "s3" fields = None ->
     assoc "key" fields = Some key ∨
     (assoc "key" fields = None ∧ assoc "Key" fields = Some key) ->
     record_location config (JObj fields) = Ok (JStr (raw_bucket (s3 config)), key)
     ∧ ∀ w, process_record config E (JObj fields) w
            = (raw_ticket ← fetch_ticket_from_s3 E (JStr (raw_bucket (s3 config))) key;
               enriched ← process_ticket E raw_ticket;
               store_results config E enriched;;
               incr_processed) w)
  ∧ (∀ message fields w,
       json_loads E (Body message) = Some (JObj fields) ->
       assoc "Records" fields = None ->
       message_records E message = Ok []
       ∧ handle_message config E message w
         = try_except (sqs_delete_message (ReceiptHandle message))
                      (fun _ => count_failure) w
       ∧ (next_request_succeeds w ->
          handle_message config E message w
          = sqs_delete_message (ReceiptHandle message) w)).
Proof.
  split.
  - intros fields key Hs3 Hkey.
    assert (Hloc : record_location config (JObj fields)
                   = Ok (JStr (raw_bucket (s3 config)), key)).
    { unfold record_location. simpl. rewrite Hs3. simpl.
      destruct Hkey as [-> | [-> ->]]; reflexivity. }
    split; [exact Hloc |].
    intros w. unfold process_record. rewrite bind_run, lift_run, Hloc.
    reflexivity.
  - intros message fields w Hbody Hrec.
    assert (Hnone : message_records E message = Ok []).
    { unfold message_records, loads. rewrite Hbody. simpl. rewrite Hrec.
      reflexivity. }
    split; [exact Hnone |].
    rewrite handle_message_run, Hnone. split; [reflexivity |].
    destruct w as [o t d st l f c]. unfold next_request_succeeds. simpl.
    destruct f as [|[] f]; [reflexivity | contradiction | reflexivity].
Qed.

Lemma manual_record_defaults_to_raw_bucket_witness :
  record_location config0 (JObj [("key", JStr "T-1.json")])
  = Ok (JStr "tickets-raw", JStr "T-1.json")
  ∧ handle_message config0 E0 (message_of "rh-1" body_direct_key) (world0 [])
    = sqs_delete_message "rh-1" (world0 []).
Proof.
  destruct (manual_record_defaults_to_raw_bucket config0 E0) as [H1 H2].
  split.
  - apply (H1 [("key", JStr "T-1.json")] (JStr "T-1.json")).
    + reflexivity.
    + left. reflexivity.
  - destruct (H2 (message_of "rh-1" body_direct_key)
                 [("key", JStr "T-1.json")] (world0 [])) as (_ & _ & H).
    + vm_compute. reflexivity.
    + reflexivity.
    + apply H. exact I.
Defined.

(** C3, as stated, fails: the body is the bare key reference of T-1, whose
    raw document is in the raw bucket.  The poll cycle deletes the message,
    starts no fetch, and writes nothing: no projection, no blob, no unit
    counted. *)
Lemma direct_key_message_is_dropped :
  let message := message_of "rh-1" body_direct_key in
  let w := world0 [] in
  let w' := fst (poll_and_process config0 E0 (Ok [message]) w) in
  toy_loads (Body message) = Some (JObj [("key", JStr "T-1.json")])
  ∧ objects w !! ("tickets-raw", "T-1.json") = Some (render doc_T1)
  ∧ deleted w' = ["rh-1"]
  ∧ log w' = [LogReceived 1]
  ∧ table w' = ∅
  ∧ objects w' !! ("tickets-enriched", "T-1.json") = None
  ∧ tickets_processed (stats w') = 0%nat.
Proof. vm_compute. repeat split. Qed.

(** ** Messages with an unparsable record *)

Section Unparsable.
Variable config : ProcessorConfig.
Variable E : Externals.

End Unparsable.




(** ** The batch *)

Section Batch.
Variable config : ProcessorConfig.
Variable E : Externals.





Lemma batch_returns messages w :
  snd (for_each (handle_message config E) messages w) = Ok tt.
Proof.
  destruct (for_each_total (handle_message config E) messages
              (handle_message_total config E) w) as (w' & [] & ->).
  reflexivity.
Qed.

(** A poll cycle that received messages visits every one of them and
    reports their number. *)
Lemma poll_and_process_run messages w :
  messages ≠ [] ->
  poll_and_process config E (Ok messages) w
  = (fst (for_each (handle_message config E) messages
            (fst (emit (LogReceived (length messages)) w))),
     Ok (length messages)).
Proof.
  intros Hne. destruct messages as [|m rest]; [contradiction |].
  unfold poll_and_process, try_except.
  rewrite bind_run, lift_run, bind_run.
  cbn [emit fst].
  set (start := Build_World _ _ _ _ _ _ _).
  rewrite bind_run.
  pose proof (batch_returns (m :: rest) start) as Hret.
  destruct (for_each (handle_message config E) (m :: rest) start) as [w' [[]|e]];
    [reflexivity | discriminate Hret].
Qed.

Lemma poll_and_process_empty w :
  poll_and_process config E (Ok []) w = (w, Ok 0%nat).
Proof. reflexivity. Qed.

End Batch.




(** The batch of the witness, run: the malformed message in the middle stays
    in the queue, the two around it are deleted. *)
Example batch_with_malformed_message :
  let batch := [message_of "rh-1" body_event_T1;
                {| Body := "not json"; ReceiptHandle := "rh-2" |};
                message_of "rh-3" body_event_T2] in
  let final := fst (poll_and_process config0 E0 (Ok batch) (world0 [])) in
  snd (poll_and_process config0 E0 (Ok batch) (world0 [])) = Ok 3%nat
  ∧ deleted final = ["rh-1"; "rh-3"]
  ∧ tickets_processed (stats final) = 2%nat
  ∧ tickets_failed (stats final) = 1%nat.
Proof. vm_compute. repeat split. Qed.

(** ** The counters *)





Section Counters.
Variable config : ProcessorConfig.
Variable E : Externals.







End Counters.



(** *** One failing unit, seen from the counters *)

Section FailingUnit.
Variable config : ProcessorConfig.
Variable E : Externals.

Lemma unit_written_counted w record w' :
  unit_written config E w record w' ->
  tickets_processed (stats w') = S (tickets_processed (stats w))
  ∧ tickets_failed (stats w') = tickets_failed (stats w).
Proof.
  intros (bucket & key & w1 & raw & w2 & enriched & w3
          & _ & Hfetch & Hproc & Hstore & _ & Hincr).
  pose proof (fetch_quiet E bucket key w) as (_ & _ & _ & H1).
  pose proof (process_ticket_quiet E raw w1) as (_ & _ & _ & H2).
  pose proof (store_results_uncounted config E enriched w2) as (_ & H3).
  rewrite Hfetch in H1. rewrite Hproc in H2. rewrite Hstore in H3.
  simpl in *. inversion Hincr; subst; clear Hincr. simpl.
  rewrite H1, H2, H3. split; reflexivity.
Qed.

Lemma units_written_counted w records w' :
  units_written config E w records w' ->
  tickets_processed (stats w') = (tickets_processed (stats w) + length records)%nat
  ∧ tickets_failed (stats w') = tickets_failed (stats w).
Proof.
  induction 1 as [w | w record w1 rest w2 Hunit _ [IHp IHf]]; simpl.
  - split; [lia | reflexivity].
  - apply unit_written_counted in Hunit as [Hp Hf]. split; [lia | congruence].
Qed.

Lemma failed_unit_uncounted record w e :
  snd (process_record config E record w) = Raise e ->
  stats (fst (process_record config E record w)) = stats w.
Proof.
  unfold process_record. rewrite bind_run, lift_run.
  destruct (record_location config record) as [[bucket key]|e0]; [| reflexivity].
  rewrite bind_run.
  pose proof (fetch_quiet E bucket key w) as (_ & _ & _ & H1).
  destruct (fetch_ticket_from_s3 E bucket key w) as [w1 [raw|e1]];
    simpl in H1; [| intros _; simpl; congruence].
  rewrite bind_run.
  pose proof (process_ticket_quiet E raw w1) as (_ & _ & _ & H2).
  destruct (process_ticket E raw w1) as [w2 [enriched|e2]];
    simpl in H2; [| intros _; simpl; congruence].
  rewrite bind_run.
  pose proof (store_results_uncounted config E enriched w2) as (_ & H3).
  destruct (store_results config E enriched w2) as [w3 [[]|e3]];
    simpl in H3; [intros H; discriminate H | intros _; simpl; congruence].
Qed.

(** When the units before some unit of a message are written and that unit
    fails, each written unit has been counted as processed, the failure is
    counted once, and the message stays in the queue. *)
Lemma failing_unit_counted_once message done failing rest w w1 e :
  message_records E message = Ok (done ++ failing :: rest) ->
  units_written config E w done w1 ->
  snd (process_record config E failing w1) = Raise e ->
  let w' := fst (handle_message config E message w) in
  tickets_processed (stats w') = (tickets_processed (stats w) + length done)%nat
  ∧ tickets_failed (stats w') = S (tickets_failed (stats w))
  ∧ deleted w' = deleted w.
Proof.
  intros Hrec Hdone Hfail. simpl.
  destruct (units_written_counted w done w1 Hdone) as [Hp Hf].
  pose proof (records_unacked config E done w) as [Hd _].
  pose proof (process_record_unacked config E failing w1) as [Hd2 _].
  pose proof (failed_unit_uncounted failing w1 e Hfail) as Hs.
  apply records_ok_iff in Hdone.
  rewrite handle_message_run, Hrec, for_each_app, Hdone in *. simpl in Hd.
  simpl. rewrite bind_run.
  destruct (process_record config E failing w1) as [w2 [[]|e']];
    simpl in *; [discriminate Hfail |].
  rewrite Hs. repeat split; congruence.
Qed.
End FailingUnit.

(** * Further properties *)

(** Walks through a statement as [frame_with] does; [leaf] closes the
    primitives. *)
Ltac walk refl trans leaf :=
  repeat first
    [ apply preserves_bind; [apply trans | | intros ?]
    | apply preserves_try_except; [apply trans | | intros ?]
    | apply preserves_for_each; [apply refl | apply trans | intros ?]
    | apply preserves_lift; apply refl
    | apply preserves_raise; apply refl
    | apply preserves_ret; apply refl
    | match goal with |- preserves _ (let x := _ in _) => cbv zeta end
    | match goal with |- preserves _ (match ?x with _ => _ end) => destruct x end
    | (intros ?w; leaf) ].

(** ** The poll cycle as a whole *)

(** X1.  [poll_and_process] never raises: it returns the number of messages
    received, and 0 when the receive call failed; in the latter case nothing
    but the log has changed. *)
Theorem poll_and_process_never_raises (config : ProcessorConfig) (E : Externals)
    (response : result (list Message)) (w : World) :
  snd (poll_and_process config E response w)
  = Ok (match response with Ok messages => length messages | Raise _ => 0%nat end)
  ∧ match response with
    | Ok [] => fst (poll_and_process config E response w) = w
    | Ok _ => True
    | Raise _ => quiet w (fst (poll_and_process config E response w))
                 ∧ faults (fst (poll_and_process config E response w)) = faults w
    end.
Proof.
  destruct response as [[|m rest]|e].
  - split; reflexivity.
  - rewrite poll_and_process_run; [| discriminate]. split; [reflexivity | exact I].
  - split; [reflexivity |]. split; [repeat split | reflexivity].
Qed.

Section WholeCycle.
Variable config : ProcessorConfig.
Variable E : Externals.

Lemma other_buckets_kept_refl bucket w : other_buckets_kept bucket w w.
Proof. intros b k _. reflexivity. Qed.

Lemma other_buckets_kept_trans bucket w1 w2 w3 :
  other_buckets_kept bucket w1 w2 -> other_buckets_kept bucket w2 w3 ->
  other_buckets_kept bucket w1 w3.
Proof. intros H1 H2 b k Hne. rewrite (H2 b k Hne). apply H1, Hne. Qed.

Lemma stores_grow_refl w : stores_grow w w.
Proof. split; reflexivity. Qed.

Lemma stores_grow_trans w1 w2 w3 :
  stores_grow w1 w2 -> stores_grow w2 w3 -> stores_grow w1 w3.
Proof. intros [H1 H2] [H3 H4]. split; etransitivity; eassumption. Qed.

Lemma poll_other_buckets_kept response :
  preserves (other_buckets_kept (enriched_bucket (s3 config)))
            (poll_and_process config E response).
Proof.
  unfold poll_and_process, handle_message, process_message, process_record,
    fetch_ticket_from_s3, process_ticket, store_results, s3_get_object,
    s3_put_object, table_put_item.
  walk (other_buckets_kept_refl (enriched_bucket (s3 config)))
       (other_buckets_kept_trans (enriched_bucket (s3 config)))
       ltac:(intros b k Hne; simpl; try reflexivity;
             apply lookup_insert_ne; congruence).
Qed.

Lemma poll_stores_grow response :
  preserves stores_grow (poll_and_process config E response).
Proof.
  unfold poll_and_process, handle_message, process_message, process_record,
    fetch_ticket_from_s3, process_ticket, store_results, s3_get_object,
    s3_put_object, table_put_item.
  walk stores_grow_refl stores_grow_trans
       ltac:(split; simpl; try reflexivity; rewrite dom_insert; set_solver).
Qed.
End WholeCycle.

(** X2.  A poll cycle writes objects into the enriched bucket only: every
    object of any other bucket is as it was.  And it never removes anything:
    the keys of the buckets and of the table are still there afterwards. *)
Theorem worker_writes_only_enriched_bucket (config : ProcessorConfig)
    (E : Externals) (response : result (list Message)) (w : World) :
  let w' := fst (poll_and_process config E response w) in
  (∀ bucket key, bucket ≠ enriched_bucket (s3 config) ->
     objects w' !! (bucket, key) = objects w !! (bucket, key))
  ∧ dom (objects w) ⊆ dom (objects w')
  ∧ dom (table w) ⊆ dom (table w').
Proof.
  split; [apply (poll_other_buckets_kept config E response w) |].
  apply (poll_stores_grow config E response w).
Qed.

Lemma worker_writes_only_enriched_bucket_witness :
  let w' := fst (poll_and_process config0 E0
                   (Ok [message_of "rh-1" body_event_T1]) (world0 [])) in
  objects w' !! ("tickets-raw", "T-1.json") = Some (render doc_T1).
Proof.
  intros w'.
  destruct (worker_writes_only_enriched_bucket config0 E0
              (Ok [message_of "rh-1" body_event_T1]) (world0 [])) as [H _].
  apply (H "tickets-raw" "T-1.json"). discriminate.
Defined.

(** ** Fetching a raw document *)

(** X3.  [fetch_ticket_from_s3] returns a document exactly when bucket and
    key are strings, the request goes through, the object exists and its
    body decodes to a JSON object; the document returned is that object.  In
    every case the buckets, the table, the queue and the counters are as they
    were. *)
Theorem fetch_succeeds_iff (E : Externals) (bucket key : json) (w : World)
    (doc : json) :
  (snd (fetch_ticket_from_s3 E bucket key w) = Ok doc
   ↔ ∃ b k text fields,
       bucket = JStr b ∧ key = JStr k
       ∧ hd false (faults w) = false
       ∧ objects w !! (b, k) = Some text
       ∧ json_loads E text = Some (JObj fields)
       ∧ doc = JObj fields)
  ∧ quiet w (fst (fetch_ticket_from_s3 E bucket key w)).
Proof.
  split; [| apply fetch_quiet].
  split.
  - intros H.
    destruct (fetch_ticket_from_s3 E bucket key w) as [w' r] eqn:Hrun.
    simpl in H. subst r.
    destruct (fetch_returns_object E bucket key w w' doc Hrun) as [fields ->].
    unfold fetch_ticket_from_s3 in Hrun.
    apply bind_ok_inv in Hrun as ([] & w1 & Hemit & Hrun).
    apply (try_reraise_ok_inv _ (fun _ => LogFetchFailed)) in Hrun.
    apply bind_ok_inv in Hrun as (text & w2 & Hget & Hrun).
    apply bind_ok_inv in Hrun as (ticket & w3 & Hloads & Hrun).
    apply bind_ok_inv in Hrun as (ticket_id & w4 & _ & Hrun).
    apply bind_ok_inv in Hrun as ([] & w5 & _ & Hrun).
    inversion Hrun; subst; clear Hrun.
    apply lift_ok_inv in Hloads as [_ Hloads].
    unfold loads in Hloads.
    destruct (json_loads E text) as [v|] eqn:Hdec; [| discriminate Hloads].
    inversion Hloads; subst; clear Hloads.
    unfold s3_get_object in Hget.
    destruct bucket; try discriminate Hget. destruct key; try discriminate Hget.
    apply bind_ok_inv in Hget as ([] & w6 & Hreq & Hget).
    inversion Hemit; subst; clear Hemit.
    unfold request in Hreq. simpl in Hreq.
    inversion Hreq as [[Hw6 Hfault]]; subst w6; clear Hreq.
    unfold read_object in Hget. simpl in Hget.
    destruct (objects w !! (s, s0)) as [body|] eqn:Hobj; [| discriminate Hget].
    inversion Hget; subst; clear Hget.
    exists s, s0, text, fields. repeat split; try assumption.
    destruct (faults w) as [|[] ?]; simpl in *; congruence.
  - intros (b & k & text & fields & -> & -> & Hfault & Hobj & Hdec & ->).
    unfold fetch_ticket_from_s3, try_except, s3_get_object.
    rewrite !bind_run. simpl.
    rewrite !bind_run. simpl.
    destruct (faults w) as [|[] rest]; [| discriminate Hfault |];
      simpl; rewrite Hobj; simpl; unfold loads; rewrite Hdec; reflexivity.
Qed.

Lemma fetch_succeeds_iff_witness :
  snd (fetch_ticket_from_s3 E0 (JStr "tickets-raw") (JStr "T-1.json") (world0 []))
  = Ok doc_T1.
Proof.
  apply (fetch_succeeds_iff E0 (JStr "tickets-raw") (JStr "T-1.json")
           (world0 []) doc_T1).
  exists "tickets-raw", "T-1.json", (render doc_T1).
  eexists. repeat split; reflexivity.
Defined.

(** ** Projections and their blobs *)

Section Pointers.
Variable config : ProcessorConfig.
Variable E : Externals.

Lemma keeps_pointers_refl w : keeps_pointers config w w.
Proof. intros Hf Hp. split; assumption. Qed.

Lemma keeps_pointers_trans w1 w2 w3 :
  keeps_pointers config w1 w2 -> keeps_pointers config w2 w3 ->
  keeps_pointers config w1 w3.
Proof. intros H1 H2 Hf Hp. destruct (H1 Hf Hp) as [Hf2 Hp2]. apply H2; assumption. Qed.

Lemma fault_free_tail (l : list bool) :
  Forall (fun b => b = false) l -> Forall (fun b => b = false) (tail l).
Proof. intros H. destruct H; [constructor | assumption]. Qed.

Lemma insert_keeps_some {K} `{Countable K} {V} (m : gmap K V) (i j : K) (x : V) :
  is_Some (m !! j) -> is_Some (<[i := x]> m !! j).
Proof.
  intros Hj. destruct (decide (i = j)) as [-> | Hne].
  - rewrite lookup_insert_eq. eauto.
  - rewrite lookup_insert_ne; assumption.
Qed.

(** With no failure scheduled, both writes of [store_results] go through,
    and the projection written points at the blob written. *)
Lemma store_results_keeps_pointers enriched :
  preserves (keeps_pointers config) (store_results config E enriched).
Proof.
  intros w Hf Hp. destruct w as [o t d s l f c].
  unfold fault_free, pointers_resolve in *. simpl in Hf, Hp.
  assert (Hcases : f = [] ∨ (∃ r, f = [false] ∧ r = tt)
                   ∨ ∃ f', f = false :: false :: f'
                           ∧ Forall (fun b => b = false) f').
  { destruct Hf as [|b f1 Hb Hf1]; [auto |]. subst b.
    destruct Hf1 as [|b f2 Hb Hf2]; [right; left; exists tt; auto |]. subst b.
    right. right. eauto. }
  assert (Hgoal : ∀ f', Forall (fun b => b = false) f' ->
    ∀ row item,
      <[DynamoDBTicket.key (DynamoDBTicket.from_enriched enriched)
        := DynamoDBTicket.from_enriched enriched]> t !! row = Some item ->
      is_Some (<[(enriched_bucket (s3 config),
                  EnrichedTicket.ticket_id enriched +:+ ".json")
                 := model_dump_json E enriched]> o
               !! (enriched_bucket (s3 config), DynamoDBTicket.s3_key item))).
  { intros f' _ row item Hrow.
    destruct (decide (DynamoDBTicket.key (DynamoDBTicket.from_enriched enriched) = row))
      as [<- | Hne].
    - rewrite lookup_insert_eq in Hrow. inversion Hrow; subst item. simpl.
      rewrite lookup_insert_eq. eauto.
    - rewrite lookup_insert_ne in Hrow by assumption.
      apply insert_keeps_some. apply (Hp row item Hrow). }
  destruct Hcases as [-> | [(_ & -> & _) | (f' & -> & Hf')]]; simpl.
  - split; [constructor | apply (Hgoal []); constructor].
  - split; [constructor | apply (Hgoal []); constructor].
  - split; [exact Hf' | apply (Hgoal f' Hf')].
Qed.

Ltac pointers_leaf :=
  intros Hf Hp; split;
  [ unfold fault_free in *; simpl; first [exact Hf | apply fault_free_tail, Hf]
  | exact Hp ].

Lemma fetch_keeps_pointers bucket key :
  preserves (keeps_pointers config) (fetch_ticket_from_s3 E bucket key).
Proof.
  unfold fetch_ticket_from_s3, s3_get_object.
  walk keeps_pointers_refl keeps_pointers_trans pointers_leaf.
Qed.

Lemma process_ticket_keeps_pointers raw :
  preserves (keeps_pointers config) (process_ticket E raw).
Proof.
  unfold process_ticket.
  walk keeps_pointers_refl keeps_pointers_trans pointers_leaf.
Qed.

Lemma process_record_keeps_pointers record :
  preserves (keeps_pointers config) (process_record config E record).
Proof.
  unfold process_record.
  apply preserves_bind; [apply keeps_pointers_trans | | intros [bucket key]].
  { apply preserves_lift, keeps_pointers_refl. }
  apply preserves_bind;
    [apply keeps_pointers_trans | apply fetch_keeps_pointers | intros raw].
  apply preserves_bind;
    [apply keeps_pointers_trans | apply process_ticket_keeps_pointers
    | intros enriched].
  apply preserves_bind;
    [apply keeps_pointers_trans | apply store_results_keeps_pointers | intros _].
  intros w. pointers_leaf.
Qed.

Lemma poll_keeps_pointers response :
  preserves (keeps_pointers config) (poll_and_process config E response).
Proof.
  unfold poll_and_process.
  apply preserves_try_except; [apply keeps_pointers_trans | | intros e].
  2: { walk keeps_pointers_refl keeps_pointers_trans pointers_leaf. }
  apply preserves_bind; [apply keeps_pointers_trans | | intros messages].
  { apply preserves_lift, keeps_pointers_refl. }
  destruct messages as [|m rest].
  { apply preserves_ret, keeps_pointers_refl. }
  apply preserves_bind; [apply keeps_pointers_trans | | intros _].
  { intros w. pointers_leaf. }
  apply preserves_bind; [apply keeps_pointers_trans | | intros _].
  2: { apply preserves_ret, keeps_pointers_refl. }
  apply preserves_for_each;
    [apply keeps_pointers_refl | apply keeps_pointers_trans | intros message].
  unfold handle_message, process_message.
  apply preserves_try_except; [apply keeps_pointers_trans | | intros e].
  2: { walk keeps_pointers_refl keeps_pointers_trans pointers_leaf. }
  apply preserves_bind; [apply keeps_pointers_trans | | intros body].
  { apply preserves_lift, keeps_pointers_refl. }
  apply preserves_bind; [apply keeps_pointers_trans | | intros has_records].
  { apply preserves_lift, keeps_pointers_refl. }
  apply preserves_bind; [apply keeps_pointers_trans | | intros _].
  2: { unfold sqs_delete_message.
       walk keeps_pointers_refl keeps_pointers_trans pointers_leaf. }
  destruct has_records; [| apply preserves_ret, keeps_pointers_refl].
  apply preserves_bind; [apply keeps_pointers_trans | | intros records].
  { apply preserves_lift, keeps_pointers_refl. }
  apply preserves_bind; [apply keeps_pointers_trans | | intros items].
  { apply preserves_lift, keeps_pointers_refl. }
  apply preserves_for_each;
    [apply keeps_pointers_refl | apply keeps_pointers_trans
    | apply process_record_keeps_pointers].
Qed.
End Pointers.

(** X4.  As long as no request fails, a poll cycle keeps every
    projection pointing at an existing blob: if each row of the table has its
    [s3_key] in the enriched bucket before the cycle, so it is after it. *)
Theorem pointers_resolve_without_faults (config : ProcessorConfig)
    (E : Externals) (response : result (list Message)) (w : World) :
  Forall (fun b => b = false) (faults w) ->
  (∀ row item, table w !! row = Some item ->
     is_Some (objects w !! (enriched_bucket (s3 config), DynamoDBTicket.s3_key item))) ->
  let w' := fst (poll_and_process config E response w) in
  ∀ row item, table w' !! row = Some item ->
    is_Some (objects w' !! (enriched_bucket (s3 config), DynamoDBTicket.s3_key item)).
Proof.
  intros Hf Hp. apply (poll_keeps_pointers config E response w Hf Hp).
Qed.

Lemma pointers_resolve_without_faults_witness :
  let w' := fst (poll_and_process config0 E0
                   (Ok [message_of "rh-1" body_event_T1]) (world0 [])) in
  is_Some (objects w' !! ("tickets-enriched", "T-1.json")).
Proof.
  intros w'.
  assert (Hf : Forall (fun b => b = false) (faults (world0 []))) by constructor.
  assert (Hp : ∀ row item, table (world0 []) !! row = Some item ->
            is_Some (objects (world0 [])
                     !! (enriched_bucket (s3 config0), DynamoDBTicket.s3_key item))).
  { intros row item H. simpl in H. rewrite lookup_empty in H. discriminate H. }
  apply (pointers_resolve_without_faults config0 E0
           (Ok [message_of "rh-1" body_event_T1]) (world0 []) Hf Hp
           ("T-1", 1700000000%Z)
           (DynamoDBTicket.from_enriched (enriched_T1 "t0"))).
  vm_compute. reflexivity.
Defined.

(** ** What validation tells about the document *)

Section ValidatedDocument.
Variable E : Externals.

Lemma str_field_ok_inv fields k s :
  str_field fields k = Ok s -> assoc k fields = Some (JStr s).
Proof.
  unfold str_field. destruct (assoc k fields) as [[]|]; intros H;
    inversion H; reflexivity.
Qed.

Lemma int_field_ok_inv fields k z :
  int_field E fields k = Ok z ->
  ∃ v, assoc k fields = Some v ∧ int_validate E v = Some z.
Proof.
  unfold int_field. destruct (assoc k fields) as [v|]; [| discriminate].
  destruct (int_validate E v) as [z'|] eqn:Hv; [| discriminate].
  intros H. inversion H; subst. eauto.
Qed.

(** The fields of a validated ticket are those of the document. *)
Lemma RawTicket_init_ok_inv fields ticket :
  RawTicket_init E fields = Ok ticket ->
  assoc "ticket_id" fields = Some (JStr (RawTicket.ticket_id ticket))
  ∧ assoc "subject" fields = Some (JStr (RawTicket.subject ticket))
  ∧ assoc "body" fields = Some (JStr (RawTicket.body ticket))
  ∧ optional_str_field fields "priority" = Ok (RawTicket.priority ticket)
  ∧ (∃ v, assoc "created_at" fields = Some v
          ∧ int_validate E v = Some (RawTicket.created_at ticket))
  ∧ assoc "customer_id" fields = Some (JStr (RawTicket.customer_id ticket)).
Proof.
  unfold RawTicket_init. intros H.
  apply result_bind_ok_inv in H as (ticket_id & H1 & H).
  apply result_bind_ok_inv in H as (subject & H2 & H).
  apply result_bind_ok_inv in H as (body & H3 & H).
  apply result_bind_ok_inv in H as (priority & H4 & H).
  apply result_bind_ok_inv in H as (created_at & H5 & H).
  apply result_bind_ok_inv in H as (customer_id & H6 & H).
  apply result_bind_ok_inv in H as (metadata & H7 & H).
  inversion H; subst; clear H. simpl.
  apply str_field_ok_inv in H1, H2, H3, H6.
  apply int_field_ok_inv in H5.
  repeat split; assumption.
Qed.

Lemma get_text_of_field fields k s :
  assoc k fields = Some (JStr s) -> get_text (JObj fields) k = Ok s.
Proof. intros H. unfold get_text. simpl. rewrite H. reflexivity. Qed.

Lemma classify_intent_total ticket subject body :
  get_text ticket "subject" = Ok subject ->
  get_text ticket "body" = Ok body ->
  ∃ r, classify_intent ticket = Ok r.
Proof.
  intros Hs Hb. unfold classify_intent. rewrite Hs, Hb. simpl.
  destruct (negb _); [eauto |].
  destruct (best_scored (intent_scores _)) as [[]|]; eauto.
Qed.
End ValidatedDocument.

(** X5.  A raw document whose [priority] is null passes [RawTicket]
    validation (the priority is optional), but the unit then fails: once the
    embedding is computed, [classify_urgency] calls [lower] on [None], and
    [process_ticket] raises [AttributeError]. *)
Theorem null_priority_fails_unit (E : Externals) (fields : list (string * json))
    (ticket : RawTicket.t) (embedding : list Q) (w : World) :
  assoc "priority" fields = Some JNull ->
  RawTicket_init E fields = Ok ticket ->
  generate_ticket_embedding E (JObj fields) = Ok embedding ->
  RawTicket.priority ticket = None
  ∧ classify_urgency (JObj fields) = Raise AttributeError
  ∧ snd (process_ticket E (JObj fields) w) = Raise AttributeError.
Proof.
  intros Hnull Hvalid Hembed.
  destruct (RawTicket_init_ok_inv E fields ticket Hvalid)
    as (_ & Hs & Hb & Hp & _).
  assert (Hurgency : classify_urgency (JObj fields) = Raise AttributeError).
  { unfold classify_urgency. simpl. rewrite Hnull. reflexivity. }
  split; [| split; [exact Hurgency |]].
  - unfold optional_str_field in Hp. rewrite Hnull in Hp.
    inversion Hp. reflexivity.
  - destruct (classify_intent_total (JObj fields) _ _
                (get_text_of_field fields "subject" _ Hs)
                (get_text_of_field fields "body" _ Hb)) as [[intent c] Hintent].
    unfold process_ticket, try_except. simpl.
    rewrite Hvalid. simpl. rewrite Hembed. simpl.
    unfold get_classification_summary. rewrite Hintent. simpl.
    rewrite Hurgency. reflexivity.
Qed.

Lemma null_priority_fails_unit_witness :
  snd (process_ticket E0
         (JObj [("ticket_id", JStr "T-9"); ("subject", JStr "Refund");
                ("body", JStr "I was charged twice"); ("priority", JNull);
                ("created_at", JInt 1700000100); ("customer_id", JStr "C-9")])
         (world0 []))
  = Raise AttributeError.
Proof.
  apply (null_priority_fails_unit E0 _
           (RawTicket.mk "T-9" "Refund" "I was charged twice" None 1700000100
              "C-9" (TicketMetadata.mk "unknown" "en" []))
           half_vector (world0 [])); reflexivity.
Defined.

(** X6.  What the table row of a processed document holds: the document's own
    [ticket_id], [subject] and [customer_id], the integer that validation read
    from [created_at], an [s3_key] made of the ticket id and [.json], and the
    labels and summary of the enrichment. *)
Theorem projection_matches_document (E : Externals)
    (fields : list (string * json)) (w w' : World) (enriched : EnrichedTicket.t) :
  process_ticket E (JObj fields) w = (w', Ok enriched) ->
  let item := DynamoDBTicket.from_enriched enriched in
  let e := EnrichedTicket.enrichment enriched in
  assoc "ticket_id" fields = Some (JStr (DynamoDBTicket.ticket_id item))
  ∧ assoc "subject" fields = Some (JStr (DynamoDBTicket.subject item))
  ∧ assoc "customer_id" fields = Some (JStr (DynamoDBTicket.customer_id item))
  ∧ (∃ v, assoc "created_at" fields = Some v
          ∧ int_validate E v = Some (DynamoDBTicket.created_at item))
  ∧ DynamoDBTicket.s3_key item = DynamoDBTicket.ticket_id item +:+ ".json"
  ∧ DynamoDBTicket.intent item = EnrichmentData.intent e
  ∧ DynamoDBTicket.urgency item = EnrichmentData.urgency e
  ∧ DynamoDBTicket.sentiment item = EnrichmentData.sentiment e
  ∧ DynamoDBTicket.summary item = EnrichmentData.summary e
  ∧ generate_summary E (JObj fields) = Ok (EnrichmentData.summary e)
  ∧ EnrichmentData.model_version e = "1.0.0".
Proof.
  intros H. simpl.
  unfold process_ticket in H.
  apply bind_ok_inv in H as (ticket_id & w1 & _ & H).
  apply bind_ok_inv in H as ([] & w2 & _ & H).
  apply (try_reraise_ok_inv _ (fun _ => LogProcessFailed ticket_id)) in H.
  apply bind_ok_inv in H as (ticket & w3 & Hticket & H).
  apply bind_ok_inv in H as (embedding & w4 & _ & H).
  apply bind_ok_inv in H as (classification & w5 & _ & H).
  apply bind_ok_inv in H as (summary & w6 & Hsummary & H).
  apply bind_ok_inv in H as (now & w7 & _ & H).
  apply bind_ok_inv in H as (enrichment & w8 & He & H).
  apply bind_ok_inv in H as ([] & w9 & _ & H).
  inversion H; subst; clear H.
  apply lift_ok_inv in Hticket as [_ Hticket].
  apply lift_ok_inv in Hsummary as [_ Hsummary].
  apply lift_ok_inv in He as [_ He].
  simpl in Hticket.
  destruct (RawTicket_init_ok_inv E fields ticket Hticket)
    as (H1 & H2 & _ & _ & H5 & H6).
  unfold EnrichmentData_init in He.
  destruct (_ && _) in He; [| discriminate He].
  inversion He; subst; clear He. simpl.
  repeat split; assumption.
Qed.

Lemma projection_matches_document_witness :
  DynamoDBTicket.s3_key (DynamoDBTicket.from_enriched (enriched_T1 "t0"))
  = "T-1" +:+ ".json".
Proof.
  destruct (projection_matches_document E0
              [("ticket_id", JStr "T-1"); ("subject", JStr "Cannot login");
               ("body", JStr "I cannot login since this morning, please help");
               ("created_at", JInt 1700000000); ("customer_id", JStr "C-1");
               ("metadata", JObj [("source", JStr "email")])]
              (world0 []) (fst (process_ticket E0 doc_T1 (world0 [])))
              (enriched_T1 "t0")) as (_ & _ & _ & _ & H & _).
  - vm_compute. reflexivity.
  - exact H.
Defined.

(** ** The keyword classifiers *)











(** X9.  Once the classifier pipeline is loaded, [classify_sentiment] on a
    ticket with textual subject and body never raises, also when the model
    call does.  Its answer is either [NEUTRAL] with confidence exactly 1/2,
    or the model's own label in upper case with the model's score, and that
    score is then outside the band from 0.45 to 0.55. *)
Theorem classify_sentiment_absorbs_model_failure (E : Externals) (ticket : json)
    (classifier : string -> result (string * Q)) (subject body : string) :
  load_classifier_pipeline E = Ok classifier ->
  get_text ticket "subject" = Ok subject ->
  get_text ticket "body" = Ok body ->
  ∃ label score,
    classify_sentiment E ticket = Ok (label, score)
    ∧ ((label = "NEUTRAL" ∧ score = (5 # 10)%Q)
       ∨ (∃ l, classifier (truncate_words 400 (combined_text subject body))
               = Ok (l, score)
               ∧ label = upper l
               ∧ blank (combined_text subject body) = false
               ∧ ~ ((45 # 100 <= score)%Q ∧ (score <= 55 # 100)%Q))).
Proof.
  intros Hload Hs Hb. unfold classify_sentiment.
  rewrite Hload. simpl. rewrite Hs, Hb. simpl.
  destruct (truthy (strip (combined_text subject body))) eqn:Htruthy; simpl.
  2:{ eexists _, _. split; [reflexivity |]. left. split; reflexivity. }
  destruct (classifier _) as [[l score] | e] eqn:Hmodel.
  2:{ eexists _, _. split; [reflexivity |]. left. split; reflexivity. }
  destruct (Qle_bool (45 # 100) score && Qle_bool score (55 # 100)) eqn:Hband.
  { eexists _, _. split; [reflexivity |]. left. split; reflexivity. }
  eexists _, _. split; [reflexivity |]. right. exists l.
  split; [reflexivity |]. split; [reflexivity |]. split.
  - rewrite strip_truthy in Htruthy.
    destruct (blank _); [discriminate Htruthy | reflexivity].
  - intros [H1 H2]. apply Qle_bool_iff in H1, H2.
    rewrite H1, H2 in Hband. discriminate Hband.
Qed.

Lemma classify_sentiment_absorbs_model_failure_witness :
  ∃ label score, classify_sentiment E0 doc_T1 = Ok (label, score).
Proof.
  destruct (load_classifier_pipeline E0) as [classifier | e] eqn:Hload.
  - destruct (classify_sentiment_absorbs_model_failure E0 doc_T1 classifier
                "Cannot login" "I cannot login since this morning, please help"
                Hload) as (label & score & H & _).
    + reflexivity.
    + reflexivity.
    + exists label, score. exact H.
  - vm_compute in Hload. discriminate Hload.
Defined.

(** ** The summarizer *)

Lemma last_char_snoc (s : string) (c : ascii) :
  last_char (s +:+ String c EmptyString) = Some c.
Proof.
  induction s as [| a s IH]; [reflexivity |].
  change (String a s +:+ String c EmptyString)
    with (String a (s +:+ String c EmptyString)).
  simpl. rewrite IH.
  destruct (s +:+ String c EmptyString) eqn:Hs; [| reflexivity].
  destruct s; discriminate Hs.
Qed.

Lemma length_str_take (n : nat) (s : string) :
  (String.length (str_take n s) <= n)%nat.
Proof.
  unfold str_take. revert s. induction n as [| n IH]; intros s.
  - destruct s; simpl; lia.
  - destruct s as [| c s]; simpl; [lia |]. specialize (IH s). lia.
Qed.

Lemma length_str_take_le (n : nat) (s : string) :
  (String.length (str_take n s) <= String.length s)%nat.
Proof.
  unfold str_take. revert s. induction n as [| n IH]; intros s.
  - destruct s; simpl; lia.
  - destruct s as [| c s]; simpl; [lia |]. specialize (IH s). lia.
Qed.

Lemma length_append (s1 s2 : string) :
  String.length (s1 +:+ s2) = (String.length s1 + String.length s2)%nat.
Proof. induction s1 as [| c s1 IH]; simpl; [reflexivity | rewrite IH; reflexivity]. Qed.

Lemma before_last_space_shorter (s prefix : string) :
  before_last_space s = Some prefix ->
  (String.length prefix < String.length s)%nat.
Proof.
  revert prefix. induction s as [| c s IH]; intros prefix H; simpl in H.
  - discriminate H.
  - destruct (before_last_space s) as [p |].
    + inversion H; subst. simpl. specialize (IH p eq_refl). lia.
    + destruct (code c =? 32)%N; inversion H; subst. simpl. lia.
Qed.

Lemma length_rsplit_head (s : string) :
  (String.length (rsplit_head s) <= String.length s)%nat.
Proof.
  unfold rsplit_head. destruct (before_last_space s) as [p |] eqn:H; [| lia].
  apply before_last_space_shorter in H. lia.
Qed.

(** [generate_summary(ticket)] is [generate_summary(ticket, None, 10)]. *)
Lemma generate_summary_default (E : Externals) (ticket : json) :
  generate_summary E ticket = generate_summary_with E ticket None 10%Z.
Proof. reflexivity. Qed.

(** X10.  With the summarizer loaded and the token limit known, a ticket whose
    body has fewer than 20 words is summarised without the model: the summary
    is the subject, or the first 100 characters of the body when there is no
    subject, whatever the summarizer would answer. *)
Theorem short_ticket_summary_skips_model (E : Externals) (ticket : json)
    (summarizer : string -> Z -> Z -> result string)
    (max_length : option Z) (min_length n : Z) (subject body : string) :
  load_summarizer_pipeline E = Ok summarizer ->
  match max_length with Some m => Ok m | None => env_max_summary_length E end
    = Ok n ->
  get_text ticket "subject" = Ok subject ->
  get_text ticket "body" = Ok body ->
  (length (split body) < 20)%nat ->
  generate_summary_with E ticket max_length min_length
  = Ok (if truthy subject then subject else str_take 100 body).
Proof.
  intros Hload Hmax Hs Hb Hshort. unfold generate_summary_with.
  rewrite Hload. simpl. rewrite Hmax. simpl. rewrite Hs, Hb. simpl.
  apply Nat.ltb_lt in Hshort.
  destruct subject, body; simpl; try reflexivity.
  - simpl in Hshort. rewrite Hshort. reflexivity.
  - simpl in Hshort. rewrite Hshort. reflexivity.
Qed.

Lemma short_ticket_summary_skips_model_witness :
  generate_summary_with E0 doc_T1 None 10%Z = Ok "Cannot login".
Proof.
  apply (short_ticket_summary_skips_model E0 doc_T1
           (fun text _ _ => Ok (str_take 20 text)) None 10%Z 50%Z
           "Cannot login" "I cannot login since this morning, please help").
  - reflexivity.
  - reflexivity.
  - reflexivity.
  - reflexivity.
  - vm_compute. lia.
Defined.

(** X11.  With the summarizer loaded and the token limit known, a ticket whose
    body has 20 words or more always gets a summary, also when the model call
    raises.  The model is given the subject, a full stop and the body (the
    body alone without a subject) cut to 700 words.  A summary that comes
    from the model is stripped and is empty or ends with one of [.!?]; when
    the model raises, the summary is at most the first 100 characters of the
    subject (of the body without a subject). *)
Theorem long_ticket_summary (E : Externals) (ticket : json)
    (summarizer : string -> Z -> Z -> result string)
    (max_length : option Z) (min_length n : Z) (subject body : string) :
  load_summarizer_pipeline E = Ok summarizer ->
  match max_length with Some m => Ok m | None => env_max_summary_length E end
    = Ok n ->
  get_text ticket "subject" = Ok subject ->
  get_text ticket "body" = Ok body ->
  (20 <= length (split body))%nat ->
  let text := if truthy subject then subject +:+ ". " +:+ body else body in
  ∃ summary,
    generate_summary_with E ticket max_length min_length = Ok summary
    ∧ match summarizer (truncate_words 700 text) n min_length with
      | Ok answer =>
          (summary = strip answer ∨ summary = strip answer +:+ ".")
          ∧ (summary = EmptyString ∨ ends_sentence summary = true)
      | Raise _ =>
          summary = str_take 100 (if truthy subject then subject else body)
          ∧ (String.length summary <= 100)%nat
      end.
Proof.
  intros Hload Hmax Hs Hb Hlong text. unfold generate_summary_with.
  rewrite Hload. simpl. rewrite Hmax. simpl. rewrite Hs, Hb. simpl.
  fold text.
  assert (Hbody : truthy body = true).
  { destruct body; [simpl in Hlong; lia | reflexivity]. }
  rewrite Hbody. simpl. rewrite andb_false_r.
  assert (Hnot : (length (split body) <? 20)%nat = false)
    by (apply Nat.ltb_ge; exact Hlong).
  rewrite Hnot.
  destruct (summarizer (truncate_words 700 text) n min_length)
    as [answer | e] eqn:Hmodel.
  - eexists. split; [reflexivity |].
    destruct (truthy (strip answer)) eqn:Htruthy; simpl.
    + destruct (ends_sentence (strip answer)) eqn:Hends; simpl.
      * split; [left; reflexivity | right; exact Hends].
      * split; [right; reflexivity |]. right.
        unfold ends_sentence. rewrite last_char_snoc. reflexivity.
    + split; [left; reflexivity |]. left.
      destruct (strip answer); [reflexivity | discriminate Htruthy].
  - eexists. split; [reflexivity |].
    destruct (truthy subject); (split; [reflexivity | apply length_str_take]).
Qed.

Lemma long_ticket_summary_witness :
  ∃ summary,
    generate_summary_with E0
      (JObj [("subject", JStr "Sync");
             ("body", JStr "a b c d e f g h i j k l m n o p q r s t u v")])
      (Some 30%Z) 10%Z = Ok summary
    ∧ (summary = EmptyString ∨ ends_sentence summary = true).
Proof.
  destruct (long_ticket_summary E0
              (JObj [("subject", JStr "Sync");
                     ("body", JStr "a b c d e f g h i j k l m n o p q r s t u v")])
              (fun text _ _ => Ok (str_take 20 text)) (Some 30%Z) 10%Z 30%Z
              "Sync" "a b c d e f g h i j k l m n o p q r s t u v")
    as (summary & H & Hpost).
  - reflexivity.
  - reflexivity.
  - reflexivity.
  - reflexivity.
  - vm_compute. lia.
  - exists summary. split; [exact H |]. simpl in Hpost.
    destruct Hpost as [_ Hends]. exact Hends.
Defined.

(** X12.  [summarize_for_display] keeps its promise for a display length of
    at least three: the text it returns has at most [max_display_length]
    characters.  It is the summary itself when that fits, and otherwise ends
    with three dots. *)
Theorem display_summary_fits (E : Externals) (ticket : json)
    (max_display_length : Z) (shown : string) :
  (3 <= max_display_length)%Z ->
  summarize_for_display E ticket max_display_length = Ok shown ->
  (Z.of_nat (String.length shown) <= max_display_length)%Z
  ∧ ∃ summary,
      generate_summary_with E ticket (Some 30%Z) 10%Z = Ok summary
      ∧ (shown = summary
         ∨ ((max_display_length < Z.of_nat (String.length summary))%Z
            ∧ ∃ head, shown = head +:+ "...")).
Proof.
  intros Hthree H. unfold summarize_for_display in H.
  apply result_bind_ok_inv in H as (summary & Hsummary & H).
  destruct (Z.leb_spec (Z.of_nat (String.length summary)) max_display_length)
    as [Hfits | Hlong].
  - inversion H; subst. split; [exact Hfits |].
    exists shown. split; [exact Hsummary | left; reflexivity].
  - inversion H; subst; clear H. split.
    + rewrite length_append. simpl.
      pose proof (length_rsplit_head (py_slice_to (max_display_length - 3) summary))
        as Hhead.
      unfold py_slice_to in *.
      destruct (Z.leb_spec 0 (max_display_length - 3)) as [_ | Hneg]; [| lia].
      pose proof (length_str_take (Z.to_nat (max_display_length - 3)) summary).
      lia.
    + exists summary. split; [exact Hsummary |]. right.
      split; [exact Hlong |]. eexists. reflexivity.
Qed.

Lemma display_summary_fits_witness :
  (Z.of_nat (String.length "Cannot...") <= 10)%Z.
Proof.
  destruct (display_summary_fits E0 doc_T1 10%Z "Cannot...") as [H _].
  - lia.
  - vm_compute. reflexivity.
  - exact H.
Defined.

(** Below three the promise breaks: the slice bound is negative and counts
    from the end of the summary. *)
Lemma display_length_below_three :
  summarize_for_display E0 doc_T1 2%Z = Ok "Cannot...".
Proof. vm_compute. reflexivity. Qed.

Lemma collect_length {A B} (f : A -> result B) (l : list A) (r : list B) :
  collect f l = Ok r -> length r = length l.
Proof.
  revert r. induction l as [| x l IH]; intros r H; simpl in H.
  - inversion H. reflexivity.
  - apply result_bind_ok_inv in H as (y & _ & H).
    apply result_bind_ok_inv in H as (ys & Hys & H).
    inversion H; subst. simpl. rewrite (IH ys Hys). reflexivity.
Qed.

Lemma collect_Forall2 {A B} (f : A -> result B) (l : list A) (r : list B) :
  collect f l = Ok r -> Forall2 (fun x y => f x = Ok y) l r.
Proof.
  revert r. induction l as [| x l IH]; intros r H; simpl in H.
  - inversion H. constructor.
  - apply result_bind_ok_inv in H as (y & Hy & H).
    apply result_bind_ok_inv in H as (ys & Hys & H).
    inversion H; subst. constructor; [exact Hy | exact (IH ys Hys)].
Qed.

Lemma collect_total {A B} (f : A -> result B) (l : list A) :
  (∀ x, In x l -> ∃ y, f x = Ok y) -> ∃ r, collect f l = Ok r.
Proof.
  induction l as [| x l IH]; intros H; simpl.
  - eauto.
  - destruct (H x (or_introl eq_refl)) as [y Hy].
    destruct IH as [ys Hys]; [intros z Hz; apply H; right; exact Hz |].
    rewrite Hy. simpl. rewrite Hys. simpl. eauto.
Qed.

(** X13.  [generate_summaries_batch] on tickets whose subject and body are
    text returns one summary per ticket and never raises.  For such a ticket
    [generate_summary] raises only when the summarizer cannot be loaded or
    the token limit cannot be read; the entry is then the first 100
    characters of the subject. *)
Theorem batch_summaries_one_per_ticket (E : Externals) (tickets : list json)
    (max_length : option Z) (min_length : Z) :
  (∀ ticket, In ticket tickets -> text_ticket ticket) ->
  ∃ summaries,
    generate_summaries_batch E tickets max_length min_length = Ok summaries
    ∧ length summaries = length tickets
    ∧ Forall2 (fun ticket summary =>
                 generate_summary_with E ticket max_length min_length = Ok summary
                 ∨ ∃ e subject,
                     generate_summary_with E ticket max_length min_length = Raise e
                     ∧ (load_summarizer_pipeline E = Raise e
                        ∨ (max_length = None ∧ env_max_summary_length E = Raise e))
                     ∧ get_text ticket "subject" = Ok subject
                     ∧ summary = str_take 100 subject
                     ∧ (String.length summary <= 100)%nat)
              tickets summaries.
Proof.
  intros Htext. unfold generate_summaries_batch.
  assert (Hwhy : ∀ ticket e, text_ticket ticket ->
            generate_summary_with E ticket max_length min_length = Raise e ->
            load_summarizer_pipeline E = Raise e
            ∨ (max_length = None ∧ env_max_summary_length E = Raise e)).
  { intros ticket e (subject & body & Hs & Hb) H.
    unfold generate_summary_with in H.
    destruct (load_summarizer_pipeline E) as [summarizer | e0] eqn:Hload.
    2:{ simpl in H. left. inversion H. reflexivity. }
    simpl in H. right.
    destruct max_length as [m |].
    - exfalso. simpl in H. rewrite Hs, Hb in H. simpl in H.
      destruct (_ && _) in H; [discriminate H |].
      destruct (negb _) in H; [discriminate H |].
      destruct (_ <? _)%nat in H; [discriminate H |].
      destruct (summarizer _ _ _) in H; discriminate H.
    - split; [reflexivity |].
      destruct (env_max_summary_length E) as [n | e1] eqn:Henv.
      + exfalso. simpl in H. rewrite Hs, Hb in H. simpl in H.
        destruct (_ && _) in H; [discriminate H |].
        destruct (negb _) in H; [discriminate H |].
        destruct (_ <? _)%nat in H; [discriminate H |].
        destruct (summarizer _ _ _) in H; discriminate H.
      + simpl in H. inversion H. reflexivity. }
  destruct (collect_total (summary_or_fallback E max_length min_length) tickets)
    as [summaries Hrun].
  { intros ticket Hin. destruct (Htext ticket Hin) as (subject & body & Hs & _).
    unfold summary_or_fallback.
    destruct (generate_summary_with E ticket max_length min_length); [eauto |].
    destruct ticket; try discriminate Hs.
    simpl. rewrite Hs. simpl. eauto. }
  exists summaries. split; [exact Hrun |].
  split; [exact (collect_length _ _ _ Hrun) |].
  apply collect_Forall2 in Hrun.
  assert (Hin : Forall text_ticket tickets).
  { apply List.Forall_forall. exact Htext. }
  clear Htext. induction Hrun as [| ticket summary tickets' summaries' H _ IH].
  - constructor.
  - inversion Hin as [| ? ? Hticket Hrest]; subst.
    constructor; [| exact (IH Hrest)].
    simpl in H. unfold summary_or_fallback in H.
    destruct (generate_summary_with E ticket max_length min_length) as [s | e]
      eqn:Hsummary.
    + left. exact H.
    + right. apply result_bind_ok_inv in H as (_id & _ & H).
      apply result_bind_ok_inv in H as (subject & Hs & H).
      inversion H; subst. exists e, subject.
      split; [reflexivity |].
      split; [exact (Hwhy ticket e Hticket Hsummary) |].
      split; [exact Hs |]. split; [reflexivity | apply length_str_take].
Qed.

Lemma batch_summaries_one_per_ticket_witness :
  ∃ summaries,
    generate_summaries_batch E0 [doc_T1; doc_T2] None 10%Z = Ok summaries
    ∧ length summaries = 2%nat.
Proof.
  destruct (batch_summaries_one_per_ticket E0 [doc_T1; doc_T2] None 10%Z)
    as (summaries & H & Hlen & _).
  - intros ticket [<- | [<- | []]]; eexists _, _; split; reflexivity.
  - exists summaries. split; [exact H | exact Hlen].
Defined.

(** ** Batch embeddings *)

(** X14.  [batch_generate_embeddings] on text tickets, with the model loaded,
    hands the model exactly one text per ticket and never an empty one: the
    text of a ticket is its combined subject and body, and a single space
    when that is blank.  What the call returns or raises is what the model
    does on these texts.  (A blank ticket thus reaches the model here, while
    [generate_ticket_embedding] answers the zero vector without the model.) *)
Theorem batch_embeddings_texts (E : Externals)
    (encode_batch : list string -> result (list (list Q)))
    (model : string -> result (list Q)) (tickets : list json) :
  load_embedding_model E = Ok model ->
  (∀ ticket, In ticket tickets -> text_ticket ticket) ->
  ∃ texts,
    batch_generate_embeddings E encode_batch tickets = encode_batch texts
    ∧ length texts = length tickets
    ∧ Forall (fun text => text <> EmptyString) texts
    ∧ Forall2 (fun ticket text =>
                 ∃ subject body,
                   get_text ticket "subject" = Ok subject
                   ∧ get_text ticket "body" = Ok body
                   ∧ text = if blank (combined_text subject body) then " "
                            else combined_text subject body)
              tickets texts.
Proof.
  intros Hload Htext.
  assert (Hone : ∀ ticket text, batch_text ticket = Ok text ->
            ∃ subject body,
              get_text ticket "subject" = Ok subject
              ∧ get_text ticket "body" = Ok body
              ∧ text = if blank (combined_text subject body) then " "
                       else combined_text subject body).
  { intros ticket text H. unfold batch_text in H.
    apply result_bind_ok_inv in H as (subject & Hs & H).
    apply result_bind_ok_inv in H as (body & Hb & H).
    exists subject, body. split; [exact Hs |]. split; [exact Hb |].
    rewrite strip_truthy in H. inversion H.
    destruct (blank (combined_text subject body)); reflexivity. }
  destruct (collect_total batch_text tickets) as [texts Hrun].
  { intros ticket Hin. destruct (Htext ticket Hin) as (subject & body & Hs & Hb).
    unfold batch_text. rewrite Hs, Hb. simpl. eauto. }
  exists texts. split; [| split; [| split]].
  - unfold batch_generate_embeddings. rewrite Hload. simpl.
    rewrite Hrun. reflexivity.
  - exact (collect_length _ _ _ Hrun).
  - apply collect_Forall2 in Hrun.
    induction Hrun as [| ticket text tickets' texts' H _ IH]; constructor.
    + destruct (Hone ticket text H) as (subject & body & _ & _ & ->).
      destruct (blank (combined_text subject body)) eqn:Hblank; [discriminate |].
      intros Hempty. rewrite Hempty in Hblank. discriminate Hblank.
    + apply IH. intros t Hin. apply Htext. right. exact Hin.
  - apply collect_Forall2 in Hrun.
    eapply Forall2_impl; [exact Hrun |]. exact Hone.
Qed.

Lemma batch_embeddings_texts_witness :
  ∃ texts,
    batch_generate_embeddings E0 (fun texts => Ok (map (fun _ => half_vector) texts))
      [doc_T1; JObj [("subject", JStr " ")]]
    = Ok (map (fun _ => half_vector) texts)
    ∧ Forall (fun text => text <> EmptyString) texts.
Proof.
  destruct (batch_embeddings_texts E0
              (fun texts => Ok (map (fun _ => half_vector) texts))
              (fun _ => Ok half_vector)
              [doc_T1; JObj [("subject", JStr " ")]])
    as (texts & H & _ & Hne & _).
  - reflexivity.
  - intros ticket [<- | [<- | []]]; eexists _, _; split; reflexivity.
  - exists texts. split; [exact H | exact Hne].
Defined.

(** ** The fields that matter *)

Section FieldsThatMatter.
Variable E : Externals.
Variable fields : list (string * json).
Variable fields' : list (string * json).
Hypothesis Hsame : same_ticket_fields fields fields'.

Lemma same_py_get (k : string) (default : json) :
  In k RawTicket_fields ->
  py_get (JObj fields') k default = py_get (JObj fields) k default.
Proof. intros Hk. simpl. rewrite (Hsame k Hk). reflexivity. Qed.

Lemma same_get_text (k : string) :
  In k RawTicket_fields -> get_text (JObj fields') k = get_text (JObj fields) k.
Proof. intros Hk. unfold get_text. rewrite (same_py_get _ _ Hk). reflexivity. Qed.

Lemma same_RawTicket_init : RawTicket_init E fields' = RawTicket_init E fields.
Proof.
  unfold RawTicket_init, str_field, optional_str_field, int_field, metadata_field.
  rewrite (Hsame "ticket_id"), (Hsame "subject"), (Hsame "body"),
    (Hsame "priority"), (Hsame "created_at"), (Hsame "customer_id"),
    (Hsame "metadata"); first [reflexivity | unfold RawTicket_fields; simpl; tauto].
Qed.

Lemma same_enrichment :
  generate_ticket_embedding E (JObj fields') = generate_ticket_embedding E (JObj fields)
  ∧ get_classification_summary E (JObj fields')
    = get_classification_summary E (JObj fields)
  ∧ generate_summary E (JObj fields') = generate_summary E (JObj fields).
Proof.
  assert (Hs : get_text (JObj fields') "subject" = get_text (JObj fields) "subject")
    by (apply same_get_text; unfold RawTicket_fields; simpl; tauto).
  assert (Hb : get_text (JObj fields') "body" = get_text (JObj fields) "body")
    by (apply same_get_text; unfold RawTicket_fields; simpl; tauto).
  assert (Hp : py_get (JObj fields') "priority" (JStr EmptyString)
               = py_get (JObj fields) "priority" (JStr EmptyString))
    by (apply same_py_get; unfold RawTicket_fields; simpl; tauto).
  repeat split.
  - unfold generate_ticket_embedding. rewrite Hs, Hb. reflexivity.
  - unfold get_classification_summary, classify_intent, classify_urgency,
      classify_sentiment.
    rewrite Hs, Hb, Hp. reflexivity.
  - unfold generate_summary. rewrite Hs, Hb. reflexivity.
Qed.
End FieldsThatMatter.

(** X15.  The pipeline reads the seven fields of [RawTicket] and nothing
    else: two raw documents that agree on them are validated alike and
    [process_ticket] gives the same result and the same log for both.  Keys
    that [RawTicket] does not declare are ignored, not rejected. *)
Theorem unknown_keys_are_ignored (E : Externals)
    (fields fields' : list (string * json)) (w : World) :
  same_ticket_fields fields fields' ->
  RawTicket_init E fields' = RawTicket_init E fields
  ∧ process_ticket E (JObj fields') w = process_ticket E (JObj fields) w.
Proof.
  intros Hsame. split; [exact (same_RawTicket_init E fields fields' Hsame) |].
  destruct (same_enrichment E fields fields' Hsame) as (He & Hc & Hs).
  unfold process_ticket.
  rewrite (same_py_get fields fields' Hsame "ticket_id" (JStr "unknown"))
    by (unfold RawTicket_fields; simpl; tauto).
  unfold RawTicket_of.
  rewrite (same_RawTicket_init E fields fields' Hsame), He, Hc, Hs.
  reflexivity.
Qed.

Lemma unknown_keys_are_ignored_witness :
  process_ticket E0
    (JObj [("channel", JStr "chat"); ("ticket_id", JStr "T-2");
           ("subject", JStr "Refund"); ("body", JStr "I was charged twice");
           ("priority", JStr "low"); ("created_at", JInt 1700000100);
           ("customer_id", JStr "C-2"); ("attachments", JArr [])])
    (world0 [])
  = process_ticket E0 doc_T2 (world0 []).
Proof.
  apply (unknown_keys_are_ignored E0
           [("ticket_id", JStr "T-2"); ("subject", JStr "Refund");
            ("body", JStr "I was charged twice"); ("priority", JStr "low");
            ("created_at", JInt 1700000100); ("customer_id", JStr "C-2")]).
  intros k Hk. unfold RawTicket_fields in Hk. simpl in Hk.
  destruct Hk as [<- | [<- | [<- | [<- | [<- | [<- | [<- | []]]]]]]]; reflexivity.
Defined.

(** ** The message schema and the worker's own parsing *)

Lemma model_field_ok_inv (fields m : list (string * json)) (k : string) :
  model_field fields k = Ok m -> assoc k fields = Some (JObj m).
Proof.
  unfold model_field. destruct (assoc k fields) as [[]|]; intros H;
    inversion H; reflexivity.
Qed.

Lemma S3Event_located (config : ProcessorConfig) (E : Externals)
    (record : json) (ev : S3Event.t) :
  S3Event_init E record = Ok ev ->
  record_location config record
  = Ok (JStr (S3Event.name (S3Event.bucket (S3Event.s3 ev))),
        JStr (S3Event.key (S3Event.object (S3Event.s3 ev)))).
Proof.
  destruct record as [| | | | | | fields]; try discriminate.
  unfold S3Event_init. intros H.
  apply result_bind_ok_inv in H as (s3_fields & H1 & H).
  apply result_bind_ok_inv in H as (bucket_fields & H2 & H).
  apply result_bind_ok_inv in H as (name & H3 & H).
  apply result_bind_ok_inv in H as (object_fields & H4 & H).
  apply result_bind_ok_inv in H as (key & H5 & H).
  apply result_bind_ok_inv in H as (size & _ & H).
  apply result_bind_ok_inv in H as (eventName & _ & H).
  inversion H; subst; clear H. simpl.
  apply model_field_ok_inv in H1, H2, H4.
  apply str_field_ok_inv in H3, H5.
  unfold record_location. simpl. rewrite H1. simpl. rewrite H2. simpl.
  rewrite H3. simpl. rewrite H4. simpl. rewrite H5. reflexivity.
Qed.

(** X16.  The worker does not use the [SQSMessage] schema, but agrees with it:
    when the body of a message validates as an [SQSMessage], the worker finds
    in it one unit per validated event, and locates each unit at the bucket
    name and object key of that event. *)
Theorem schema_valid_message_is_located (config : ProcessorConfig) (E : Externals)
    (message : Message) (body : json) (events : list S3Event.t) :
  json_loads E (Body message) = Some body ->
  SQSMessage_init E body = Ok events ->
  ∃ records,
    message_records E message = Ok records
    ∧ Forall2 (fun record ev =>
                 record_location config record
                 = Ok (JStr (S3Event.name (S3Event.bucket (S3Event.s3 ev))),
                       JStr (S3Event.key (S3Event.object (S3Event.s3 ev)))))
              records events.
Proof.
  intros Hbody Hvalid. unfold SQSMessage_init in Hvalid.
  destruct body as [| | | | | | fields]; try discriminate Hvalid.
  destruct (assoc "Records" fields) as [[| | | | | records |] |] eqn:Hrecords;
    try discriminate Hvalid.
  exists records. split.
  - unfold message_records, loads. rewrite Hbody. simpl.
    rewrite Hrecords. simpl. rewrite ?Hrecords. reflexivity.
  - apply collect_Forall2 in Hvalid.
    eapply Forall2_impl; [exact Hvalid |].
    intros record ev H. exact (S3Event_located config E record ev H).
Qed.

Lemma schema_valid_message_is_located_witness :
  ∃ records,
    message_records (with_document E0 "event" body_full_event_T1)
      {| Body := "event"; ReceiptHandle := "rh-1" |} = Ok records
    ∧ Forall2 (fun record ev =>
                 record_location config0 record
                 = Ok (JStr (S3Event.name (S3Event.bucket (S3Event.s3 ev))),
                       JStr (S3Event.key (S3Event.object (S3Event.s3 ev)))))
              records
              [{| S3Event.s3 :=
                    {| S3Event.bucket := {| S3Event.name := "tickets-raw" |};
                       S3Event.object :=
                         {| S3Event.key := "T-1.json"; S3Event.size := 512 |} |};
                  S3Event.eventName := "ObjectCreated:Put" |}].
Proof.
  apply (schema_valid_message_is_located config0
           (with_document E0 "event" body_full_event_T1)
           {| Body := "event"; ReceiptHandle := "rh-1" |} body_full_event_T1).
  - reflexivity.
  - reflexivity.
Defined.

(** ** Loading the models *)

Lemma preload_ok_inv (E : Externals) :
  preload_all_models E = Ok tt ->
  ∃ model classifier summarizer,
    load_embedding_model E = Ok model
    ∧ load_classifier_pipeline E = Ok classifier
    ∧ load_summarizer_pipeline E = Ok summarizer.
Proof.
  unfold preload_all_models, discard.
  destruct (load_embedding_model E) as [model |]; [| discriminate].
  destruct (load_classifier_pipeline E) as [classifier |]; [| discriminate].
  destruct (load_summarizer_pipeline E) as [summarizer |]; [| discriminate].
  intros _. eauto 7.
Qed.

(** X17.  [preload_all_models] returns exactly when
    [check_model_availability] reports every model available; when it
    raises, the exception is that of the first loader, in the order
    embeddings, classifier, summarizer, that [check_model_availability]
    reports unavailable. *)
Theorem preload_agrees_with_availability (E : Externals) :
  (preload_all_models E = Ok tt
   ↔ ∀ name available,
       In (name, available) (check_model_availability E) -> available = true)
  ∧ ∀ e, preload_all_models E = Raise e ->
         ∃ before name after,
           check_model_availability E = before ++ (name, false) :: after
           ∧ (∀ entry, In entry before -> snd entry = true)
           ∧ ((name = "embeddings" ∧ discard (load_embedding_model E) = Raise e)
              ∨ (name = "classifier" ∧ discard (load_classifier_pipeline E) = Raise e)
              ∨ (name = "summarizer" ∧ discard (load_summarizer_pipeline E) = Raise e)).
Proof.
  split; [split |].
  - intros H. destruct (preload_ok_inv E H) as (m & c & s & Hm & Hc & Hs).
    unfold check_model_availability. rewrite Hm, Hc, Hs. simpl.
    intros name available [Hin | [Hin | [Hin | []]]]; inversion Hin; reflexivity.
  - unfold preload_all_models, check_model_availability, discard, loads_fine.
    intros H.
    destruct (load_embedding_model E) as [model | e1].
    2:{ specialize (H "embeddings" false). simpl in H.
        assert (F : false = true) by (apply H; left; reflexivity).
        discriminate F. }
    destruct (load_classifier_pipeline E) as [classifier | e2].
    2:{ specialize (H "classifier" false). simpl in H.
        assert (F : false = true) by (apply H; right; left; reflexivity).
        discriminate F. }
    destruct (load_summarizer_pipeline E) as [summarizer | e3].
    2:{ specialize (H "summarizer" false). simpl in H.
        assert (F : false = true) by (apply H; right; right; left; reflexivity).
        discriminate F. }
    reflexivity.
  - unfold preload_all_models, check_model_availability, discard, loads_fine.
    intros e He.
    destruct (load_embedding_model E) as [model | e1].
    2:{ simpl in He. inversion He; subst.
        exists [], "embeddings". eexists. split; [reflexivity |].
        split; [intros entry [] |]. left. split; reflexivity. }
    destruct (load_classifier_pipeline E) as [classifier | e2].
    2:{ simpl in He. inversion He; subst.
        exists [("embeddings", true)], "classifier". eexists.
        split; [reflexivity |].
        split; [intros entry [<- | []]; reflexivity |].
        right. left. split; reflexivity. }
    destruct (load_summarizer_pipeline E) as [summarizer | e3].
    2:{ simpl in He. inversion He; subst.
        exists [("embeddings", true); ("classifier", true)], "summarizer".
        eexists. split; [reflexivity |].
        split; [intros entry [<- | [<- | []]]; reflexivity |].
        right. right. split; reflexivity. }
    discriminate He.
Qed.

(** ** When a unit is enriched *)

Lemma classify_urgency_total (ticket : json) (p subject body : string) :
  py_get ticket "priority" (JStr EmptyString) = Ok (JStr p) ->
  get_text ticket "subject" = Ok subject ->
  get_text ticket "body" = Ok body ->
  ∃ r, classify_urgency ticket = Ok r.
Proof.
  intros Hp Hs Hb. unfold classify_urgency. rewrite Hp, Hs, Hb. simpl.
  repeat match goal with
         | |- context [if ?b then _ else _] => destruct b
         end; eauto.
Qed.

Lemma generate_summary_with_total (E : Externals) (ticket : json)
    (summarizer : string -> Z -> Z -> result string)
    (max_length : option Z) (min_length n : Z) (subject body : string) :
  load_summarizer_pipeline E = Ok summarizer ->
  match max_length with Some m => Ok m | None => env_max_summary_length E end
    = Ok n ->
  get_text ticket "subject" = Ok subject ->
  get_text ticket "body" = Ok body ->
  ∃ summary, generate_summary_with E ticket max_length min_length = Ok summary.
Proof.
  intros Hload Hmax Hs Hb. unfold generate_summary_with.
  rewrite Hload. simpl. rewrite Hmax. simpl. rewrite Hs, Hb. simpl.
  destruct (_ && _); [eauto |].
  destruct (negb _); [eauto |].
  destruct (_ <? _)%nat; [eauto |].
  destruct (summarizer _ _ _); eauto.
Qed.

Lemma classify_sentiment_total (E : Externals) (ticket : json)
    (classifier : string -> result (string * Q)) (subject body : string) :
  load_classifier_pipeline E = Ok classifier ->
  get_text ticket "subject" = Ok subject ->
  get_text ticket "body" = Ok body ->
  (∀ label score,
     classifier (truncate_words 400 (combined_text subject body)) = Ok (label, score) ->
     in_unit_interval score) ->
  ∃ label score,
    classify_sentiment E ticket = Ok (label, score) ∧ in_unit_interval score.
Proof.
  intros Hload Hs Hb Hrange. unfold classify_sentiment.
  rewrite Hload. simpl. rewrite Hs, Hb. simpl.
  assert (Hhalf : in_unit_interval (5 # 10)) by (split; discriminate).
  destruct (negb _); [eauto |].
  destruct (classifier _) as [[l score] | e] eqn:Hmodel; [| eauto].
  destruct (_ && _); [eauto |].
  eexists _, _. split; [reflexivity |]. exact (Hrange l score eq_refl).
Qed.

Lemma unit_interval_true (q : Q) : in_unit_interval q -> unit_interval q = true.
Proof.
  intros [H0 H1]. unfold unit_interval.
  apply andb_true_intro. split; apply Qle_bool_iff; assumption.
Qed.

(** X18.  What suffices for a unit to be enriched.  If the three models are
    preloaded and the token limit is readable, a raw document that validates
    as a [RawTicket] and whose [priority] is not null is enriched by
    [process_ticket], provided the embedding model answers on the combined
    text when that is not blank, and the sentiment score, when the classifier
    answers, lies between 0 and 1.  The enriched ticket carries the fields of
    the validated one. *)
Theorem valid_document_is_enriched (E : Externals) (fields : list (string * json))
    (ticket : RawTicket.t) (n : Z) (w : World) :
  preload_all_models E = Ok tt ->
  env_max_summary_length E = Ok n ->
  RawTicket_init E fields = Ok ticket ->
  assoc "priority" fields <> Some JNull ->
  let text := combined_text (RawTicket.subject ticket) (RawTicket.body ticket) in
  (∀ model, load_embedding_model E = Ok model ->
            blank text = false -> ∃ embedding, model text = Ok embedding) ->
  (∀ classifier label score,
     load_classifier_pipeline E = Ok classifier ->
     classifier (truncate_words 400 text) = Ok (label, score) ->
     in_unit_interval score) ->
  ∃ enrichment,
    snd (process_ticket E (JObj fields) w)
    = Ok (EnrichedTicket.from_raw ticket enrichment).
Proof.
  intros Hpreload Hmax Hvalid Hpriority text Hmodel Hscore.
  destruct (preload_ok_inv E Hpreload)
    as (model & classifier & summarizer & Hm & Hc & Hsm).
  destruct (RawTicket_init_ok_inv E fields ticket Hvalid)
    as (_ & Hs & Hb & Hp & _).
  apply get_text_of_field in Hs, Hb.
  assert (Hembed : ∃ embedding,
            generate_ticket_embedding E (JObj fields) = Ok embedding).
  { rewrite (generate_ticket_embedding_run E _ model _ _ Hm Hs Hb).
    fold text. destruct (blank text) eqn:Hblank; [eauto |].
    exact (Hmodel model Hm eq_refl). }
  destruct Hembed as [embedding Hembed].
  destruct (classify_intent_total _ _ _ Hs Hb) as [[intent ci] Hintent].
  assert (Hptext : ∃ p, py_get (JObj fields) "priority" (JStr EmptyString)
                        = Ok (JStr p)).
  { simpl. unfold optional_str_field in Hp.
    destruct (assoc "priority" fields) as [[] |]; try discriminate Hp; eauto.
    exfalso. apply Hpriority. reflexivity. }
  destruct Hptext as [p Hptext].
  destruct (classify_urgency_total _ _ _ _ Hptext Hs Hb) as [[urgency cu] Hurgency].
  destruct (classify_sentiment_total E _ classifier _ _ Hc Hs Hb
              (fun l s => Hscore classifier l s Hc))
    as (sentiment & cs & Hsentiment & Hcs).
  destruct (generate_summary_with_total E (JObj fields) summarizer None 10%Z n
              _ _ Hsm Hmax Hs Hb) as [summary Hsummary].
  rewrite <- generate_summary_default in Hsummary.
  pose proof (classify_intent_range _ _ _ Hintent) as Hci.
  destruct (classify_urgency_range _ _ _ Hurgency) as [_ Hcu].
  assert (Hclass : get_classification_summary E (JObj fields)
                   = Ok {| c_intent := intent; c_intent_confidence := ci;
                           c_urgency := urgency; c_urgency_confidence := cu;
                           c_sentiment := sentiment;
                           c_sentiment_confidence := cs |}).
  { unfold get_classification_summary.
    rewrite Hintent, Hurgency, Hsentiment. reflexivity. }
  assert (Hinit : ∀ stamp, ∃ enrichment,
            EnrichmentData_init embedding intent ci urgency cu sentiment cs
              summary stamp "1.0.0" = Ok enrichment).
  { intros stamp. unfold EnrichmentData_init.
    rewrite (unit_interval_true _ Hci), (unit_interval_true _ Hcu),
      (unit_interval_true _ Hcs). simpl. eauto. }
  destruct (Hinit (utcnow_isoformat E (clock w))) as [enrichment Henrichment].
  exists enrichment.
  unfold process_ticket, try_except, RawTicket_of.
  rewrite Hvalid, Hembed, Hclass, Hsummary.
  unfold mbind, M_bind, lift, emit, utcnow, mret, M_ret. simpl.
  rewrite Henrichment. reflexivity.
Qed.

Lemma valid_document_is_enriched_witness :
  ∃ enrichment,
    snd (process_ticket E0 doc_T2 (world0 []))
    = Ok (EnrichedTicket.from_raw
            (RawTicket.mk "T-2" "Refund" "I was charged twice" (Some "low")
               1700000100 "C-2" (TicketMetadata.mk "unknown" "en" []))
            enrichment).
Proof.
  apply (valid_document_is_enriched E0
           [("ticket_id", JStr "T-2"); ("subject", JStr "Refund");
            ("body", JStr "I was charged twice"); ("priority", JStr "low");
            ("created_at", JInt 1700000100); ("customer_id", JStr "C-2")]
           _ 50%Z (world0 [])).
  - reflexivity.
  - reflexivity.
  - reflexivity.
  - discriminate.
  - intros model Hm _. inversion Hm; subst. eexists. reflexivity.
  - intros classifier label score Hc H. inversion Hc; subst.
    inversion H; subst. split; discriminate.
Defined.

(** ** Cutting a text to a number of words *)

Lemma append_cons (c : ascii) (s t : string) :
  String c s +:+ t = String c (s +:+ t).
Proof. reflexivity. Qed.

Lemma append_empty_r (s : string) : s +:+ EmptyString = s.
Proof.
  induction s as [| c s IH]; [reflexivity |].
  rewrite append_cons, IH. reflexivity.
Qed.

Lemma rev_app_rev_app (a b c : string) :
  String.rev_app (String.rev_app a b) c = String.rev_app b (a +:+ c).
Proof.
  revert b c. induction a as [| x a IH]; intros b c; simpl; [reflexivity |].
  rewrite IH. reflexivity.
Qed.

Lemma rev_rev_app (w : string) : String.rev (String.rev_app w EmptyString) = w.
Proof.
  unfold String.rev. rewrite rev_app_rev_app. simpl. apply append_empty_r.
Qed.

Lemma truthy_rev_app (w cur : string) :
  truthy w = true ∨ truthy cur = true -> truthy (String.rev_app w cur) = true.
Proof.
  revert cur. induction w as [| c w IH]; intros cur H; simpl.
  - destruct H as [H | H]; [discriminate H | exact H].
  - apply IH. right. reflexivity.
Qed.

Lemma spaceless_rev_app (a b : string) :
  spaceless (String.rev_app a b) = spaceless a && spaceless b.
Proof.
  revert b. induction a as [| c a IH]; intros b; simpl; [reflexivity |].
  rewrite IH. simpl.
  destruct (py_isspace c), (spaceless a); reflexivity.
Qed.

Lemma split_go_token (w cur s : string) :
  spaceless w = true ->
  split_go cur (w +:+ s) = split_go (String.rev_app w cur) s.
Proof.
  revert cur. induction w as [| c w IH]; intros cur H; [reflexivity |].
  rewrite append_cons. simpl.
  simpl in H. apply andb_prop in H as [Hc Hw].
  destruct (py_isspace c); [discriminate Hc |]. apply IH. exact Hw.
Qed.

Lemma split_go_tokens (cur s : string) :
  spaceless cur = true -> Forall is_token (split_go cur s).
Proof.
  assert (Hout : ∀ cur, spaceless cur = true ->
            Forall is_token (if truthy cur then [String.rev cur] else [])).
  { intros c Hc. destruct (truthy c) eqn:Ht; constructor; [| constructor].
    split.
    - apply truthy_rev_app. left. exact Ht.
    - unfold String.rev. rewrite spaceless_rev_app, Hc. reflexivity. }
  revert cur. induction s as [| c s IH]; intros cur Hcur; simpl.
  - apply Hout. exact Hcur.
  - destruct (py_isspace c) eqn:Hc.
    + apply Forall_app. split; [apply Hout; exact Hcur | apply IH; reflexivity].
    + apply IH. simpl. rewrite Hc, Hcur. reflexivity.
Qed.

(** [(" ".join(ws)).split()] gives [ws] back when [ws] comes from a
    [split]. *)
Lemma split_join (ws : list string) :
  Forall is_token ws -> split (join " " ws) = ws.
Proof.
  unfold split, join. induction ws as [| w ws IH]; intros H; [reflexivity |].
  inversion H as [| ? ? [Hne Hsp] Hrest]; subst.
  destruct ws as [| w' ws].
  - simpl. rewrite <- (append_empty_r w) at 1.
    rewrite (split_go_token w EmptyString EmptyString Hsp). simpl.
    rewrite truthy_rev_app by (left; exact Hne).
    rewrite rev_rev_app. reflexivity.
  - change (String.concat " " (w :: w' :: ws))
      with (w +:+ String " " (String.concat " " (w' :: ws))).
    rewrite (split_go_token w EmptyString _ Hsp). simpl.
    rewrite truthy_rev_app by (left; exact Hne).
    rewrite rev_rev_app. simpl. f_equal. apply IH. exact Hrest.
Qed.

(** X19.  Cutting a text to [n] words keeps its first [n] words and nothing
    else: the words of [truncate_words n text] are the first [n] words of
    [text].  So the classifier is never given more than 400 words and the
    summarizer never more than 700, and a text within the limit is passed
    unchanged. *)
Theorem truncation_keeps_first_words (n : nat) (text : string) :
  split (truncate_words n text) = take n (split text)
  ∧ (length (split (truncate_words n text)) <= n)%nat
  ∧ ((length (split text) <= n)%nat -> truncate_words n text = text).
Proof.
  assert (Hwords : split (truncate_words n text) = take n (split text)).
  { unfold truncate_words.
    destruct (Nat.ltb_spec n (length (split text))) as [Hlt | Hge].
    - apply split_join. apply Forall_take.
      apply (split_go_tokens EmptyString text). reflexivity.
    - rewrite take_ge by exact Hge. reflexivity. }
  split; [exact Hwords |]. split.
  - rewrite Hwords. rewrite length_take. lia.
  - intros Hle. unfold truncate_words.
    destruct (Nat.ltb_spec n (length (split text))) as [Hlt | Hge]; [lia |].
    reflexivity.
Qed.

(** ** Bodies that are not objects *)

(** X20.  A message whose body is not a JSON object.  When the body cannot be
    decoded, or decodes to null, a boolean or a number, the message is kept
    in the queue and counted as failed.  When it decodes to a string or a
    list, Python's [in] looks for [Records] as a substring or an element: if
    it is absent the deletion of the message is requested as if it were
    empty (a failed request being counted as a failure of the message), and
    if it is present the subscript raises and the message is kept and counted
    as failed.  In no case is a store touched. *)
Theorem body_that_is_no_object (config : ProcessorConfig) (E : Externals)
    (message : Message) (w : World) :
  (∀ fields, json_loads E (Body message) <> Some (JObj fields)) ->
  handle_message config E message w
  = match json_loads E (Body message) with
    | Some (JStr s) =>
        if contains "Records" s then count_failure w
        else try_except (sqs_delete_message (ReceiptHandle message))
                        (fun _ => count_failure) w
    | Some (JArr l) =>
        if existsb (is_JStr "Records") l then count_failure w
        else try_except (sqs_delete_message (ReceiptHandle message))
                        (fun _ => count_failure) w
    | _ => count_failure w
    end.
Proof.
  intros Hshape. rewrite handle_message_run. unfold message_records, loads.
  destruct (json_loads E (Body message)) as [[| b | z | q | s | l | fields] |];
    simpl; try reflexivity.
  - destruct (contains "Records" s); reflexivity.
  - destruct (existsb (is_JStr "Records") l); reflexivity.
  - exfalso. exact (Hshape fields eq_refl).
Qed.

Lemma body_that_is_no_object_witness :
  handle_message config0 (with_document E0 "null" JNull)
    {| Body := "null"; ReceiptHandle := "rh-1" |} (world0 [])
  = count_failure (world0 []).
Proof.
  apply (body_that_is_no_object config0 (with_document E0 "null" JNull)
           {| Body := "null"; ReceiptHandle := "rh-1" |} (world0 [])).
  intros fields. discriminate.
Defined.

(** ** Storing a ticket again *)

(** X21.  Storing a second enrichment of the same ticket (same [ticket_id]
    and [created_at], as after a redelivery) replaces the first: the table
    and the bucket have the keys they had after the first store, no row or
    object is added, and both hold the second enrichment. *)
Theorem second_store_replaces_first (config : ProcessorConfig) (E : Externals)
    (first second : EnrichedTicket.t) (w w1 w2 : World) :
  EnrichedTicket.ticket_id first = EnrichedTicket.ticket_id second ->
  EnrichedTicket.created_at first = EnrichedTicket.created_at second ->
  store_results config E first w = (w1, Ok tt) ->
  store_results config E second w1 = (w2, Ok tt) ->
  table w2 = <[DynamoDBTicket.key (DynamoDBTicket.from_enriched second)
               := DynamoDBTicket.from_enriched second]> (table w)
  ∧ objects w2 = <[blob_location config (EnrichedTicket.ticket_id second)
                   := model_dump_json E second]> (objects w)
  ∧ dom (table w2) = dom (table w1)
  ∧ dom (objects w2) = dom (objects w1).
Proof.
  intros Hid Hat H1 H2.
  apply store_results_ok in H1 as [Ht1 Ho1].
  apply store_results_ok in H2 as [Ht2 Ho2].
  assert (Hkey : DynamoDBTicket.key (DynamoDBTicket.from_enriched first)
                 = DynamoDBTicket.key (DynamoDBTicket.from_enriched second)).
  { unfold DynamoDBTicket.key, DynamoDBTicket.from_enriched. simpl.
    rewrite Hid, Hat. reflexivity. }
  rewrite Ht2, Ho2, Ht1, Ho1, Hkey, Hid.
  rewrite !insert_insert_eq. repeat split.
  - rewrite !dom_insert_L. set_solver.
  - rewrite !dom_insert_L. set_solver.
Qed.

Lemma second_store_replaces_first_witness :
  dom (table (fst (store_results config0 E0 (enriched_T1 "t1")
                     (fst (store_results config0 E0 (enriched_T1 "t0")
                             (world0 []))))))
  = dom (table (fst (store_results config0 E0 (enriched_T1 "t0") (world0 [])))).
Proof.
  destruct (second_store_replaces_first config0 E0
              (enriched_T1 "t0") (enriched_T1 "t1") (world0 [])
              (fst (store_results config0 E0 (enriched_T1 "t0") (world0 [])))
              (fst (store_results config0 E0 (enriched_T1 "t1")
                      (fst (store_results config0 E0 (enriched_T1 "t0")
                              (world0 []))))))
    as (_ & _ & H & _).
  - reflexivity.
  - reflexivity.
  - vm_compute. reflexivity.
  - vm_compute. reflexivity.
  - exact H.
Defined.

(** ** Similar tickets *)

Lemma assoc_dict_set (k : string) (v : json) (m : list (string * json)) :
  assoc k (dict_set k v m) = Some v.
Proof.
  induction m as [| [k' v'] m IH]; simpl.
  - rewrite String.eqb_refl. reflexivity.
  - destruct (String.eqb k k') eqn:Hk; simpl; rewrite Hk; [reflexivity | exact IH].
Qed.

Lemma assoc_dict_set_other (k k0 : string) (v : json) (m : list (string * json)) :
  k0 <> k -> assoc k0 (dict_set k v m) = assoc k0 m.
Proof.
  intros Hne. induction m as [| [k' v'] m IH]; simpl.
  - destruct (String.eqb_spec k0 k); [contradiction | reflexivity].
  - destruct (String.eqb_spec k k') as [<- | Hk]; simpl.
    + destruct (String.eqb_spec k0 k); [contradiction | reflexivity].
    + rewrite IH. reflexivity.
Qed.

Lemma insert_desc_In {A} (x y : Q * A) (l : list (Q * A)) :
  In y (insert_desc x l) <-> y = x ∨ In y l.
Proof.
  induction l as [| z l IH]; simpl.
  - split; [intros [<- | []]; auto | intros [-> | []]; auto].
  - destruct (Qle_bool (fst z) (fst x)); simpl.
    + split; [intros [<- | H]; auto | intros [-> | H]; auto].
    + rewrite IH. split.
      * intros [<- | [-> | H]]; auto.
      * intros [-> | [<- | H]]; auto.
Qed.

Lemma sort_desc_In {A} (y : Q * A) (l : list (Q * A)) :
  In y (sort_desc l) <-> In y l.
Proof.
  induction l as [| x l IH]; simpl; [reflexivity |].
  rewrite insert_desc_In, IH. split; intros [H | H]; auto.
Qed.

Lemma insert_desc_length {A} (x : Q * A) (l : list (Q * A)) :
  length (insert_desc x l) = S (length l).
Proof.
  induction l as [| z l IH]; simpl; [reflexivity |].
  destruct (Qle_bool (fst z) (fst x)); simpl; [reflexivity | rewrite IH; reflexivity].
Qed.

Lemma sort_desc_length {A} (l : list (Q * A)) : length (sort_desc l) = length l.
Proof.
  induction l as [| x l IH]; simpl; [reflexivity |].
  rewrite insert_desc_length, IH. reflexivity.
Qed.

Lemma insert_desc_descending {A} (x : Q * A) (l : list (Q * A)) :
  descending l -> descending (insert_desc x l).
Proof.
  induction l as [| z l IH]; simpl; intros H.
  - split; [constructor | exact I].
  - destruct H as [Hz Hl].
    destruct (Qle_bool (fst z) (fst x)) eqn:Hle; simpl.
    + apply Qle_bool_iff in Hle. split; [| split; assumption].
      constructor; [exact Hle |].
      eapply List.Forall_impl; [| exact Hz].
      intros y Hy. simpl in Hy. eapply Qle_trans; [exact Hy | exact Hle].
    + split; [| apply IH; exact Hl].
      apply List.Forall_forall. intros y Hy.
      apply insert_desc_In in Hy as [-> | Hy].
      * destruct (Qlt_le_dec (fst x) (fst z)) as [Hlt | Hge].
        -- apply Qlt_le_weak. exact Hlt.
        -- apply Qle_bool_iff in Hge. rewrite Hge in Hle. discriminate Hle.
      * rewrite List.Forall_forall in Hz. exact (Hz y Hy).
Qed.

Lemma sort_desc_descending {A} (l : list (Q * A)) : descending (sort_desc l).
Proof.
  induction l as [| x l IH]; simpl; [exact I |].
  apply insert_desc_descending. exact IH.
Qed.

Lemma descending_take {A} (n : nat) (l : list (Q * A)) :
  descending l -> descending (take n l).
Proof.
  revert n. induction l as [| x l IH]; intros [| n] H; simpl; try exact I.
  destruct H as [Hx Hl]. split; [| apply IH; exact Hl].
  apply Forall_take. exact Hx.
Qed.

Lemma In_take {A} (n : nat) (l : list A) (x : A) : In x (take n l) -> In x l.
Proof.
  revert n. induction l as [| y l IH]; intros [| n] H; simpl in H;
    try contradiction.
  destruct H as [-> | H]; [left; reflexivity | right; exact (IH n H)].
Qed.

Lemma similar_candidates_sound (similarity : json -> result Q) (min_similarity : Q)
    (tickets : list (list (string * json)))
    (found : list (Q * list (string * json))) :
  similar_candidates similarity min_similarity tickets = Ok found ->
  (length found <= length tickets)%nat
  ∧ ∀ s entry, In (s, entry) found ->
      ∃ ticket embedding,
        In ticket tickets
        ∧ assoc "embedding" ticket = Some embedding
        ∧ similarity embedding = Ok s
        ∧ (min_similarity <= s)%Q
        ∧ entry = dict_set "similarity" (JFloat s) ticket.
Proof.
  revert found. induction tickets as [| ticket rest IH]; intros found H; simpl in H.
  - inversion H; subst. split; [simpl; lia | intros s entry []].
  - destruct (assoc "embedding" ticket) as [embedding |] eqn:Hemb.
    + apply result_bind_ok_inv in H as (s0 & Hs0 & H).
      apply result_bind_ok_inv in H as (more & Hmore & H).
      destruct (IH more Hmore) as [Hlen Hall].
      destruct (Qle_bool min_similarity s0) eqn:Hle; inversion H; subst; clear H.
      * split; [simpl; lia |]. intros s entry [Heq | Hin].
        -- inversion Heq; subst. exists ticket, embedding.
           repeat split; try assumption; [left; reflexivity |].
           apply Qle_bool_iff. exact Hle.
        -- destruct (Hall s entry Hin) as (t & e & Ht & Hrest).
           exists t, e. split; [right; exact Ht | exact Hrest].
      * split; [simpl; lia |]. intros s entry Hin.
        destruct (Hall s entry Hin) as (t & e & Ht & Hrest).
        exists t, e. split; [right; exact Ht | exact Hrest].
    + destruct (IH found H) as [Hlen Hall].
      split; [simpl; lia |]. intros s entry Hin.
      destruct (Hall s entry Hin) as (t & e & Ht & Hrest).
      exists t, e. split; [right; exact Ht | exact Hrest].
Qed.

(** X22.  [find_similar_tickets] with a non-negative [top_k] returns at most
    [top_k] entries, highest similarity first.  Every entry is one of the
    given tickets that has an [embedding], with its similarity to the query
    stored under [similarity] and its other items untouched, and that
    similarity is at least [min_similarity]. *)
Theorem similar_tickets_sorted_and_sound (similarity : json -> result Q)
    (tickets : list (list (string * json))) (top_k : Z) (min_similarity : Q)
    (found : list (Q * list (string * json))) :
  (0 <= top_k)%Z ->
  find_similar_tickets similarity tickets top_k min_similarity = Ok found ->
  (Z.of_nat (length found) <= top_k)%Z
  ∧ (length found <= length tickets)%nat
  ∧ descending found
  ∧ ∀ s entry, In (s, entry) found ->
      ∃ ticket embedding,
        In ticket tickets
        ∧ assoc "embedding" ticket = Some embedding
        ∧ similarity embedding = Ok s
        ∧ (min_similarity <= s)%Q
        ∧ assoc "similarity" entry = Some (JFloat s)
        ∧ ∀ k, k <> "similarity" -> assoc k entry = assoc k ticket.
Proof.
  intros Hk H. unfold find_similar_tickets in H.
  apply result_bind_ok_inv in H as (candidates & Hc & H).
  inversion H; subst; clear H.
  destruct (similar_candidates_sound _ _ _ _ Hc) as [Hlen Hall].
  unfold py_list_slice_to.
  destruct (Z.leb_spec 0 top_k) as [_ | Hneg]; [| lia].
  split; [| split; [| split]].
  - rewrite length_take. lia.
  - rewrite length_take, sort_desc_length. lia.
  - apply descending_take. apply sort_desc_descending.
  - intros s entry Hin.
    assert (Hi : In (s, entry) (sort_desc candidates))
      by exact (In_take _ _ _ Hin).
    apply (proj1 (sort_desc_In _ _)) in Hi.
    destruct (Hall s entry Hi) as (ticket & embedding & Ht & He & Hs & Hmin & ->).
    exists ticket, embedding. repeat split; try assumption.
    + apply assoc_dict_set.
    + intros k Hne. apply assoc_dict_set_other. exact Hne.
Qed.

Lemma similar_tickets_sorted_and_sound_witness :
  descending
    [((9 # 10)%Q, [("ticket_id", JStr "B"); ("embedding", JInt 9);
                   ("similarity", JFloat (9 # 10))]);
     ((7 # 10)%Q, [("ticket_id", JStr "A"); ("embedding", JInt 7);
                   ("similarity", JFloat (7 # 10))])].
Proof.
  destruct (similar_tickets_sorted_and_sound
              (fun v => match v with JInt z => Ok (z # 10)%Q | _ => Raise TypeError end)
              [[("ticket_id", JStr "A"); ("embedding", JInt 7)];
               [("ticket_id", JStr "N")];
               [("ticket_id", JStr "L"); ("embedding", JInt 2)];
               [("ticket_id", JStr "B"); ("embedding", JInt 9)];
               [("ticket_id", JStr "C"); ("embedding", JInt 6)]]
              2%Z (5 # 10)%Q
              [((9 # 10)%Q, [("ticket_id", JStr "B"); ("embedding", JInt 9);
                             ("similarity", JFloat (9 # 10))]);
               ((7 # 10)%Q, [("ticket_id", JStr "A"); ("embedding", JInt 7);
                             ("similarity", JFloat (7 # 10))])])
    as (_ & _ & H & _).
  - lia.
  - vm_compute. reflexivity.
  - exact H.
Defined.
